(** * scripts/prepare_docs.py: copying the README into the documentation index

    The script is three lines of Python:

      ROOT = Path(__file__).parent.parent

      def prepare_index_file() -> None:
          (ROOT / "docs" / "index.md").write_text((ROOT / "README.md").read_text())

      def main() -> None:
          prepare_index_file()

    Everything it does happens inside [pathlib] and the text layer of [io], so
    the development first embeds the part of those the script relies on:

    - text I/O: a file holds bytes; [read_text] decodes them with the locale's
      encoding and applies universal-newline translation, [write_text]
      translates line feeds to [os.linesep] and encodes;
    - pure paths: [Path(s)], [p.parent], [p / s];
    - the file system: a finite map from locations to files and directories,
      a current working directory, and the kernel's path walk with its errors;
    - exceptions, as the outcome of a computation.

    Scope of the model: POSIX path flavour, regular files and directories, no
    access control, one process, and a file that was opened is read or
    written to its end. Every location holds a file of its own, except in
    [Linked], where a regular file can go by several names. *)

From Stdlib Require Import NArith ZArith Lia.
From Stdlib Require Import Strings.Byte Strings.Ascii.
From stdpp Require Import gmap strings list.

Local Open Scope N_scope.

(** ** Bytes and text *)

Module Text.

(** A Python [str] is a sequence of code points, a [bytes] a sequence of
    octets. *)
Definition text := list N.
Definition bytes := list byte.

#[global] Instance byte_eq_dec : EqDecision byte := Byte.byte_eq_dec.

Definition CR : N := 13.
Definition LF : N := 10.
Definition byte_CR : byte := x0d.
Definition byte_LF : byte := x0a.

(** Line-ending translation, over any alphabet with a carriage return and a
    line feed: the same functions serve for code points (what the text layer
    does) and for octets (to say what ends up on disk). *)
Section newlines.
Context {A : Type} `{EqDecision A} (cr lf : A).

(** [newline=None] on input: "\r\n" and a lone "\r" both become "\n". *)
Fixpoint translate_in (s : list A) : list A :=
  match s with
  | [] => []
  | c :: s' =>
      if decide (c = cr) then
        lf :: match s' with
              | [] => []
              | c' :: s'' =>
                  if decide (c' = lf) then translate_in s'' else translate_in s'
              end
      else c :: translate_in s'
  end.

(** [newline=None] on output: every "\n" becomes the separator [sep]. *)
Definition translate_out (sep : list A) (s : list A) : list A :=
  flat_map (fun c => if decide (c = lf) then sep else [c]) s.
End newlines.

(** [os.linesep]. *)
Inductive line_separator := sep_LF | sep_CRLF.

Definition linesep_text (l : line_separator) : text :=
  match l with sep_LF => [LF] | sep_CRLF => [CR; LF] end.

Definition linesep_bytes (l : line_separator) : bytes :=
  match l with sep_LF => [byte_LF] | sep_CRLF => [byte_CR; byte_LF] end.

(** What [TextIOWrapper.read] hands back for decoded text [s]. *)
Definition universal_newlines (s : text) : text := translate_in CR LF s.

(** What [TextIOWrapper.write] passes to the encoder for text [s]. *)
Definition write_newlines (l : line_separator) (s : text) : text :=
  translate_out LF (linesep_text l) s.

(** The same normalisation read off the stored octets: every line ending of
    [b], whichever of "\r\n", "\r", "\n" it is, becomes the separator. *)
Definition normalize_line_endings (l : line_separator) (b : bytes) : bytes :=
  translate_out byte_LF (linesep_bytes l) (translate_in byte_CR byte_LF b).

(** A text encoding, as [codecs] presents one: strict [encode] and [decode],
    where [None] stands for UnicodeEncodeError and UnicodeDecodeError. *)
Class Codec := {
  encode : text -> option bytes;
  decode : bytes -> option text
}.

(** The encodings the results below hold for: stateless, one-to-one, and
    extending ASCII. Encoding goes character by character, decoding inverts
    it, and the octets 0x0D and 0x0A occur only as carriage return and line
    feed. UTF-8, ISO-8859-1 and ASCII are proved to be such. *)
Class Lawful (codec : Codec) : Prop := {
  encode_nil : encode [] = Some [];
  encode_cons : forall c s,
    encode (c :: s) =
      match encode [c], encode s with
      | Some b1, Some b2 => Some (b1 ++ b2)
      | _, _ => None
      end;
  decode_encode : forall b s, decode b = Some s -> encode s = Some b;
  encode_decode : forall s b, encode s = Some b -> decode b = Some s;
  encode_CR : encode [CR] = Some [byte_CR];
  encode_LF : encode [LF] = Some [byte_LF];
  encode_other : forall c b,
    encode [c] = Some b → c ≠ CR → c ≠ LF →
    b ≠ [] ∧ (byte_CR ∉ b) ∧ (byte_LF ∉ b)
}.

(** The three encodings modelled: what they do to one code point, and their
    strict decoders. *)

Definition octet (n : N) : byte := default x00 (Byte.of_N n).

Definition encode_with (enc1 : N -> option bytes) : text -> option bytes :=
  fix go (s : text) : option bytes :=
    match s with
    | [] => Some []
    | c :: s' =>
        match enc1 c, go s' with
        | Some b1, Some b2 => Some (b1 ++ b2)
        | _, _ => None
        end
    end.

(** ASCII: code points below 128, one octet each. *)
Definition ascii_encode1 (c : N) : option bytes :=
  if c <? 128 then Some [octet c] else None.

Definition ascii_encode : text -> option bytes := encode_with ascii_encode1.

Fixpoint ascii_decode (b : bytes) : option text :=
  match b with
  | [] => Some []
  | x :: b' =>
      if Byte.to_N x <? 128
      then match ascii_decode b' with Some s => Some (Byte.to_N x :: s) | None => None end
      else None
  end.

(** ISO-8859-1: code points below 256, one octet each; every octet decodes. *)
Definition latin1_encode1 (c : N) : option bytes :=
  if c <? 256 then Some [octet c] else None.

Definition latin1_encode : text -> option bytes := encode_with latin1_encode1.

Definition latin1_decode (b : bytes) : option text := Some (map Byte.to_N b).

(** UTF-8 (RFC 3629, as CPython's strict codec): one to four octets per code
    point, shortest form only, no surrogates, nothing above U+10FFFF. *)
Definition is_surrogate (c : N) : bool := (0xD800 <=? c) && (c <=? 0xDFFF).

Definition utf8_encode1 (c : N) : option bytes :=
  if c <? 0x80 then Some [octet c]
  else if c <? 0x800 then
    Some [octet (0xC0 + c / 64); octet (0x80 + c mod 64)]
  else if c <? 0x10000 then
    if is_surrogate c then None
    else Some [octet (0xE0 + c / 4096); octet (0x80 + (c / 64) mod 64);
               octet (0x80 + c mod 64)]
  else if c <? 0x110000 then
    Some [octet (0xF0 + c / 262144); octet (0x80 + (c / 4096) mod 64);
          octet (0x80 + (c / 64) mod 64); octet (0x80 + c mod 64)]
  else None.

Definition utf8_encode : text -> option bytes := encode_with utf8_encode1.

(** A continuation octet is 10xxxxxx; its payload is the low six bits. *)
Definition is_cont (x : byte) : bool :=
  (0x80 <=? Byte.to_N x) && (Byte.to_N x <? 0xC0).

Definition payload (x : byte) : N := Byte.to_N x - 0x80.

Definition accept (lo : N) (c : N) (rest : option text) : option text :=
  if (lo <=? c) && (c <? 0x110000) && negb (is_surrogate c)
  then match rest with Some s => Some (c :: s) | None => None end
  else None.

Fixpoint utf8_decode (b : bytes) : option text :=
  match b with
  | [] => Some []
  | x0 :: b1 =>
      let n0 := Byte.to_N x0 in
      if n0 <? 0x80 then
        match utf8_decode b1 with Some s => Some (n0 :: s) | None => None end
      else if n0 <? 0xC0 then None
      else if n0 <? 0xE0 then
        match b1 with
        | x1 :: b2 =>
            if is_cont x1
            then accept 0x80 ((n0 - 0xC0) * 64 + payload x1) (utf8_decode b2)
            else None
        | _ => None
        end
      else if n0 <? 0xF0 then
        match b1 with
        | x1 :: (x2 :: b3) as b2 =>
            if is_cont x1 && is_cont x2
            then accept 0x800
                   ((n0 - 0xE0) * 4096 + payload x1 * 64 + payload x2)
                   (utf8_decode b3)
            else None
        | _ => None
        end
      else if n0 <? 0xF8 then
        match b1 with
        | x1 :: (x2 :: (x3 :: b4) as b3) as b2 =>
            if is_cont x1 && is_cont x2 && is_cont x3
            then accept 0x10000
                   ((n0 - 0xF0) * 262144 + payload x1 * 4096
                    + payload x2 * 64 + payload x3)
                   (utf8_decode b4)
            else None
        | _ => None
        end
      else None
  end.

Definition ascii : Codec := {| encode := ascii_encode; decode := ascii_decode |}.
Definition latin1 : Codec := {| encode := latin1_encode; decode := latin1_decode |}.
Definition utf8 : Codec := {| encode := utf8_encode; decode := utf8_decode |}.

End Text.

Export Text.

(** ** Pure paths *)

Module pathlib.

(** A [PurePosixPath]: whether it is anchored at the root, and its
    components. ".." is kept as a component, "." and empty components are
    dropped by the parser, as pathlib does. *)
Record PurePath := { absolute : bool; parts : list string }.

(** The pieces of [s] between slashes. *)
Fixpoint components (s : string) : list string :=
  match s with
  | EmptyString => [EmptyString]
  | String c s' =>
      if Ascii.eqb c "/"%char then EmptyString :: components s'
      else match components s' with
           | [] => [String c EmptyString]
           | x :: xs => String c x :: xs
           end
  end.

Definition is_name (x : string) : bool :=
  negb (String.eqb x EmptyString || String.eqb x ".").

Definition starts_with_slash (s : string) : bool :=
  match s with
  | String c _ => Ascii.eqb c "/"%char
  | EmptyString => false
  end.

(** [Path(s)] *)
Definition Path (s : string) : PurePath :=
  {| absolute := starts_with_slash s;
     parts := List.filter is_name (components s) |}.

(** [p.parent]: the path without its last component; the anchor, and the
    empty relative path, are their own parents. *)
Definition parent (p : PurePath) : PurePath :=
  {| absolute := absolute p; parts := removelast (parts p) |}.

(** [p / s]: an absolute segment replaces [p], a relative one is appended. *)
Definition truediv (p : PurePath) (s : string) : PurePath :=
  let q := Path s in
  if absolute q then q
  else {| absolute := absolute p; parts := parts p ++ parts q |}.

End pathlib.

Export pathlib.

Declare Scope path_scope.
Delimit Scope path_scope with path.
Bind Scope path_scope with PurePath.
Notation "p / s" := (truediv p s) : path_scope.

(** ** The file system and the process *)

Module os.

Abbreviation location := (list string) (only parsing).

(** What sits at a location: a regular file with its octets, or a
    directory. The root directory is the location [[]]. *)
Inductive node := File (data : bytes) | Dir.

Inductive access := O_RDONLY | O_WRONLY_CREAT_TRUNC.

(** One entry of the trace per file the process opened. *)
Inductive event := Opened (how : access) (loc : location).

Record world := World {
  files : gmap (list string) node;
  cwd : location;
  trace : list event
}.

Inductive exn :=
  | FileNotFoundError
  | NotADirectoryError
  | IsADirectoryError
  | UnicodeDecodeError
  | UnicodeEncodeError.

Inductive outcome (A : Type) := Returned (a : A) | Raised (e : exn).
Arguments Returned {A} a.
Arguments Raised {A} e.

(** A computation runs in a world and either returns or raises. *)
Definition IO (A : Type) : Type := world -> outcome A * world.

Definition ret {A} (a : A) : IO A := fun w => (Returned a, w).
Definition raise {A} (e : exn) : IO A := fun w => (Raised e, w).
Definition bind {A B} (m : IO A) (k : A -> IO B) : IO B :=
  fun w =>
    match m w with
    | (Returned a, w') => k a w'
    | (Raised e, w') => (Raised e, w')
    end.

Definition node_at (fs : gmap (list string) node) (loc : location) : option node :=
  match loc with
  | [] => Some Dir
  | _ => fs !! loc
  end.

(** One step of the kernel's path walk: the directory reached so far must
    exist and be a directory before the next component is looked up in it. *)
Definition walk_step (fs : gmap (list string) node)
    (acc : outcome location) (name : string) : outcome location :=
  match acc with
  | Raised e => Raised e
  | Returned cur =>
      match node_at fs cur with
      | None => Raised FileNotFoundError
      | Some (File _) => Raised NotADirectoryError
      | Some Dir =>
          Returned (if String.eqb name ".." then removelast cur
                    else if is_name name then cur ++ [name]
                    else cur)
      end
  end.

(** The location a path names: the walk starts at the root or at the
    working directory. The last component itself need not exist. *)
Definition namei (fs : gmap (list string) node) (wd : location)
    (p : PurePath) : outcome location :=
  fold_left (walk_step fs) (parts p)
            (Returned (if absolute p then [] else wd)).

Definition log (e : event) (w : world) : world :=
  {| files := files w; cwd := cwd w; trace := trace w ++ [e] |}.

Definition store (loc : location) (b : bytes) (w : world) : world :=
  {| files := <[loc := File b]> (files w); cwd := cwd w; trace := trace w |}.

(** [open(p, "r")] followed by reading the file to its end. *)
Definition open_read (p : PurePath) : IO bytes :=
  fun w =>
    match namei (files w) (cwd w) p with
    | Raised e => (Raised e, w)
    | Returned loc =>
        match node_at (files w) loc with
        | None => (Raised FileNotFoundError, w)
        | Some Dir => (Raised IsADirectoryError, w)
        | Some (File b) => (Returned b, log (Opened O_RDONLY loc) w)
        end
    end.

(** [open(p, "w")]: the file is created if absent and truncated if present;
    the result is the location now open for writing. *)
Definition open_write (p : PurePath) : IO location :=
  fun w =>
    match namei (files w) (cwd w) p with
    | Raised e => (Raised e, w)
    | Returned loc =>
        match node_at (files w) loc with
        | Some Dir => (Raised IsADirectoryError, w)
        | _ => (Returned loc, log (Opened O_WRONLY_CREAT_TRUNC loc) (store loc [] w))
        end
    end.

(** Writing [b] to a file just opened for writing. *)
Definition write_all (loc : location) (b : bytes) : IO unit :=
  fun w => (Returned tt, store loc b w).

(** The interpreter's exit status for a script whose top level finished
    with outcome [o]: an uncaught exception gives 1. *)
Definition exit_status {A} (o : outcome A) : Z :=
  match o with
  | Returned _ => 0%Z
  | Raised _ => 1%Z
  end.

End os.

Export os.

#[global] Instance IO_ret : MRet IO := @ret.
#[global] Instance IO_bind : MBind IO := fun A B k m => bind m k.

(** ** Text files *)

Section text_io.
Context `{Codec} (linesep : line_separator).

(** [Path.read_text()] with its defaults: locale encoding, strict errors,
    universal newlines. *)
Definition read_text (p : PurePath) : IO text :=
  b ← open_read p;
  match decode b with
  | None => raise UnicodeDecodeError
  | Some s => mret (universal_newlines s)
  end.

(** [Path.write_text(data)] with its defaults; the file is opened, hence
    truncated, before [data] is encoded. Returns the number of characters
    written. *)
Definition write_text (p : PurePath) (data : text) : IO nat :=
  loc ← open_write p;
  match encode (write_newlines linesep data) with
  | None => raise UnicodeEncodeError
  | Some b => write_all loc b;; mret (length data)
  end.
End text_io.

(** ** The script *)

Section script.
Context `{Codec} (linesep : line_separator).

(** The path of the script file, as the interpreter sets it. *)
Variable __file__ : string.

Definition ROOT : PurePath := parent (parent (Path __file__)).

(** The two paths the script builds. *)
Definition README : PurePath := (ROOT / "README.md")%path.
Definition index_md : PurePath := (ROOT / "docs" / "index.md")%path.

(** Copy root `README.md` to `docs/index.md` *)
Definition prepare_index_file : IO unit :=
  s ← read_text (ROOT / "README.md")%path;
  write_text linesep (ROOT / "docs" / "index.md")%path s;;
  mret tt.

Definition main : IO unit := prepare_index_file.

(** The module's top level: the definitions, then the guarded call. *)
Definition module_body (__name__ : string) : IO unit :=
  if String.eqb __name__ "__main__" then main else mret tt.

(** Running the file as a script. *)
Definition run_script (w : world) : Z * world :=
  let '(o, w') := module_body "__main__" w in (exit_status o, w').
End script.

(** ** Observing a world *)

(** The location a path names in a world. *)
Definition resolve (w : world) (p : PurePath) : outcome (list string) :=
  namei (files w) (cwd w) p.

(** [os.path.isdir], [os.path.exists], and the octets of a regular file. *)
Definition isdir (w : world) (p : PurePath) : bool :=
  match resolve w p with
  | Returned loc =>
      match node_at (files w) loc with Some Dir => true | _ => false end
  | Raised _ => false
  end.

Definition exists_ (w : world) (p : PurePath) : bool :=
  match resolve w p with
  | Returned loc =>
      match node_at (files w) loc with Some _ => true | None => false end
  | Raised _ => false
  end.

Definition content (w : world) (p : PurePath) : option bytes :=
  match resolve w p with
  | Returned loc =>
      match node_at (files w) loc with Some (File b) => Some b | _ => None end
  | Raised _ => None
  end.

(** The same world seen from another working directory, and with other
    octets in the file a path names. *)
Definition chdir (wd : list string) (w : world) : world :=
  {| files := files w; cwd := wd; trace := trace w |}.


(** The world after [src] was opened for reading and [dst] was opened for
    writing and left holding [b]. *)
Definition copied (w : world) (src dst : list string) (b : bytes) : world :=
  {| files := <[dst := File b]> (files w);
     cwd := cwd w;
     trace := trace w ++ [Opened O_RDONLY src; Opened O_WRONLY_CREAT_TRUNC dst] |}.

(** The [docs] directory of the script at [f]. *)
Definition docs (f : string) : PurePath := (ROOT f / "docs")%path.

(** Looking up a plain name in the directory reached so far. *)
Definition descend (fs : gmap (list string) node) (r : list string) (name : string)
  : outcome (list string) :=
  match node_at fs r with
  | None => Raised FileNotFoundError
  | Some (File _) => Raised NotADirectoryError
  | Some Dir => Returned (r ++ [name])
  end.

(** The state of the disk in which the copy reaches the point of writing:
    the root is a directory at [r], the README is a regular file whose octets
    [b] decode to [s], [docs] is a directory, and the index is not one. *)
Definition ready {codec : Codec} (f : string) (w : world)
    (r : list string) (b : bytes) (s : text) : Prop :=
  resolve w (ROOT f) = Returned r /\
  node_at (files w) r = Some Dir /\
  files w !! (r ++ ["README.md"]) = Some (File b) /\
  decode b = Some s /\
  files w !! (r ++ ["docs"]) = Some Dir /\
  files w !! (r ++ ["docs"; "index.md"]) ≠ Some Dir.

(** ** Files with several names *)

(** The disk above gives every location a file of its own. A regular file
    can also go by several names, as hard links or through symbolic links to
    it, and then what is written under one name is read under the others.
    [Linked] adds the table of names to the world and runs the same script
    on it; with an empty table it is the world above. *)
Module Linked.

(** The disk, and for each location the other locations that name the same
    file. *)
Record world := World {
  disk : os.world;
  other_names : gmap (list string) (list (list string))
}.

Definition names_of (w : world) (loc : list string) : list (list string) :=
  default [] (other_names w !! loc).

Definition IO (A : Type) : Type := world -> outcome A * world.

Definition ret {A} (a : A) : IO A := fun w => (Returned a, w).
Definition raise {A} (e : exn) : IO A := fun w => (Raised e, w).
Definition bind {A B} (m : IO A) (k : A -> IO B) : IO B :=
  fun w =>
    match m w with
    | (Returned a, w') => k a w'
    | (Raised e, w') => (Raised e, w')
    end.

#[global] Instance IO_ret : MRet IO := @ret.
#[global] Instance IO_bind : MBind IO := fun A B k m => bind m k.

(** A computation that only looks at the disk. *)
Definition on_disk {A} (m : os.IO A) : IO A :=
  fun w =>
    let '(o, d) := m (disk w) in
    (o, {| disk := d; other_names := other_names w |}).

(** The octets [b] under each of the names [locs] that is a regular file. *)
Definition write_through (b : bytes) (fs : gmap (list string) node)
    (locs : list (list string)) : gmap (list string) node :=
  foldr (fun l acc =>
           match fs !! l with
           | Some (File _) => <[l := File b]> acc
           | _ => acc
           end) fs locs.

(** The file at [loc] holds [b], under all its names. *)
Definition store (loc : list string) (b : bytes) (w : world) : world :=
  {| disk := {| files := <[loc := File b]>
                           (write_through b (files (disk w)) (names_of w loc));
                cwd := cwd (disk w);
                trace := trace (disk w) |};
     other_names := other_names w |}.

Definition log (e : event) (w : world) : world :=
  {| disk := os.log e (disk w); other_names := other_names w |}.

(** [open(p, "r")] and reading to the end: links change nothing to it. *)
Definition open_read (p : PurePath) : IO bytes := on_disk (os.open_read p).

(** [open(p, "w")]: truncating the file truncates it under all its names. *)
Definition open_write (p : PurePath) : IO (list string) :=
  fun w =>
    match namei (files (disk w)) (cwd (disk w)) p with
    | Raised e => (Raised e, w)
    | Returned loc =>
        match node_at (files (disk w)) loc with
        | Some Dir => (Raised IsADirectoryError, w)
        | _ => (Returned loc, log (Opened O_WRONLY_CREAT_TRUNC loc) (store loc [] w))
        end
    end.

Definition write_all (loc : list string) (b : bytes) : IO unit :=
  fun w => (Returned tt, store loc b w).

Section script.
Context `{Codec} (linesep : line_separator).

Definition read_text (p : PurePath) : IO text :=
  b ← open_read p;
  match decode b with
  | None => raise UnicodeDecodeError
  | Some s => mret (universal_newlines s)
  end.

Definition write_text (p : PurePath) (data : text) : IO nat :=
  loc ← open_write p;
  match encode (write_newlines linesep data) with
  | None => raise UnicodeEncodeError
  | Some b => write_all loc b;; mret (length data)
  end.

Variable __file__ : string.

(** Copy root `README.md` to `docs/index.md` *)
Definition prepare_index_file : IO unit :=
  s ← read_text (ROOT __file__ / "README.md")%path;
  write_text (ROOT __file__ / "docs" / "index.md")%path s;;
  mret tt.

Definition main : IO unit := prepare_index_file.
End script.

(** The world after [src] was opened for reading and the file at [dst] was
    opened for writing and left holding [b]. *)
Definition copied (w : world) (src dst : list string) (b : bytes) : world :=
  {| disk := {| files := <[dst := File b]>
                           (write_through b (files (disk w)) (names_of w dst));
                cwd := cwd (disk w);
                trace := trace (disk w)
                         ++ [Opened O_RDONLY src; Opened O_WRONLY_CREAT_TRUNC dst] |};
     other_names := other_names w |}.

End Linked.

(** ** Worlds to run the script in *)

Definition script_path : string := "/repo/scripts/prepare_docs.py".

(** A checkout at [/repo], with or without a README, an index and a [docs]
    directory. *)
Definition checkout (readme index : option bytes) (has_docs : bool)
  : gmap (list string) node :=
  list_to_map
    ([ (["repo"], Dir);
       (["repo"; "scripts"], Dir);
       (["repo"; "scripts"; "prepare_docs.py"], File []) ]
     ++ match readme with Some b => [ (["repo"; "README.md"], File b) ] | None => [] end
     ++ (if has_docs then [ (["repo"; "docs"], Dir) ] else [])
     ++ match index with Some b => [ (["repo"; "docs"; "index.md"], File b) ] | None => [] end).

Definition in_checkout (readme index : option bytes) (has_docs : bool) : world :=
  {| files := checkout readme index has_docs;
     cwd := ["repo"; "scripts"];
     trace := [] |}.

(** The interpreter on a POSIX system with a UTF-8 locale. *)
Abbreviation run := (@prepare_index_file utf8 sep_LF script_path).
Abbreviation linked_run := (@Linked.prepare_index_file utf8 sep_LF script_path).

(** "# Project\n\nHello world.\n" and "stale": the scenario of the
    specification. *)
Definition hello_md : bytes :=
  String.list_byte_of_string "# Project" ++ [x0a; x0a]
  ++ String.list_byte_of_string "Hello world." ++ [x0a].

Definition stale : bytes := String.list_byte_of_string "stale".

Definition hello_checkout : world := in_checkout (Some hello_md) (Some stale) true.

(** "a\r\nb" and "a\nb", as octets and as text. *)
Definition crlf_md : bytes := [x61; x0d; x0a; x62].
Definition lf_md : bytes := [x61; x0a; x62].
Definition crlf_text : text := [97; 13; 10; 98].
Definition lf_text : text := [97; 10; 98].

(** The checkout after "a\r\nb" has been written to its README with
    [write_text]. *)
Definition crlf_checkout : world :=
  (@write_text utf8 sep_LF (README script_path) crlf_text
     (in_checkout None (Some stale) true)).2.

(** The checkout whose README holds "a\r\nb" and whose index holds "a\nb". *)
Definition mixed_checkout : world := in_checkout (Some crlf_md) (Some lf_md) true.

(** Checkouts with something missing, and one with an empty README. *)
Definition no_readme_checkout : world := in_checkout None (Some stale) true.
Definition no_docs_checkout : world := in_checkout (Some hello_md) None false.


(** Checkouts in which something is of the wrong kind: a README that is not
    UTF-8, a directory where the README should be, a regular file where
    [docs] should be, a directory where the index should be; a disk without
    the checkout; and a checkout whose index does not exist yet. *)
Definition undecodable_checkout : world := in_checkout (Some [xff]) (Some stale) true.

Definition readme_dir_checkout : world :=
  {| files := <[["repo"; "README.md"] := Dir]> (checkout None (Some stale) true);
     cwd := ["repo"; "scripts"];
     trace := [] |}.

Definition docs_file_checkout : world :=
  {| files := <[["repo"; "docs"] := File []]> (checkout (Some hello_md) None false);
     cwd := ["repo"; "scripts"];
     trace := [] |}.

Definition index_dir_checkout : world :=
  {| files := <[["repo"; "docs"; "index.md"] := Dir]> (checkout (Some hello_md) None true);
     cwd := ["repo"; "scripts"];
     trace := [] |}.

Definition empty_disk : world := {| files := ∅; cwd := []; trace := [] |}.

Definition fresh_checkout : world := in_checkout (Some hello_md) None true.


(** Checkouts on a disk with links. In the first the index is another name
    of the README, which holds "a\r\nb"; in the second the index, which holds
    "stale", also goes by the name [docs/home.md]. *)
Definition README_loc : list string := ["repo"; "README.md"].
Definition index_loc : list string := ["repo"; "docs"; "index.md"].
Definition home_loc : list string := ["repo"; "docs"; "home.md"].

Definition index_is_README : Linked.world :=
  {| Linked.disk := in_checkout (Some crlf_md) (Some crlf_md) true;
     Linked.other_names :=
       {[ index_loc := [README_loc]; README_loc := [index_loc] ]} |}.

Definition index_has_two_names : Linked.world :=
  {| Linked.disk :=
       {| files := <[home_loc := File stale]> (checkout (Some hello_md) (Some stale) true);
          cwd := ["repo"; "scripts"];
          trace := [] |};
     Linked.other_names :=
       {[ index_loc := [home_loc]; home_loc := [index_loc] ]} |}.


(** * Properties *)

(** ** The model on small inputs *)

(** [PurePosixPath("a//b/./c/../d/").parts], and an absolute segment on the
    right of [/]. *)
Example Path_parts :
  Path "a//b/./c/../d/" = {| absolute := false; parts := ["a"; "b"; "c"; ".."; "d"] |} /\
  (Path "/x" / "a/b")%path = Path "/x/a/b" /\
  (Path "/x" / "/abs")%path = Path "/abs".
Proof. repeat split; reflexivity. Qed.

(** The root, and the empty relative path, are their own parents. *)
Example parent_saturates :
  parent (Path "/") = Path "/" /\
  parent (parent (Path "prepare_docs.py")) = Path "." /\
  parent (Path "/a/..") = Path "/a".
Proof. repeat split; reflexivity. Qed.

(** "\r\n", a lone "\r" and a final "\r" all read as "\n". *)
Example universal_newlines_sample :
  universal_newlines [97; 13; 10; 98; 13; 99; 13] = [97; 10; 98; 10; 99; 10].
Proof. reflexivity. Qed.

(** The euro sign, a character outside the basic plane and e-acute; the
    largest code point; and what strict UTF-8 refuses: overlong forms,
    surrogates, code points past U+10FFFF, stray octets. *)
Example utf8_samples :
  utf8_decode [xe2; x82; xac; xf0; x9f; x98; x80; xc3; xa9] = Some [0x20AC; 0x1F600; 0xE9] /\
  utf8_encode [0x20AC; 0x1F600; 0xE9] = Some [xe2; x82; xac; xf0; x9f; x98; x80; xc3; xa9] /\
  utf8_decode [xf4; x8f; xbf; xbf] = Some [0x10FFFF] /\
  utf8_decode [xc0; x80] = None /\
  utf8_decode [xe0; x9f; xbf] = None /\
  utf8_decode [xf0; x8f; xbf; xbf] = None /\
  utf8_decode [xed; xa0; x80] = None /\
  utf8_decode [xf4; x90; x80; x80] = None /\
  utf8_decode [xff] = None /\
  utf8_encode [0xD800] = None.
Proof. vm_compute. repeat split; reflexivity. Qed.

(** The errors of [open]: a missing file, a missing directory on the way, a
    regular file on the way, a directory at the end. *)
Example open_errors :
  (open_read (Path "/repo/none") hello_checkout).1 = Raised FileNotFoundError /\
  (open_read (Path "/repo/none/x") hello_checkout).1 = Raised FileNotFoundError /\
  (open_read (Path "/repo/README.md/x") hello_checkout).1 = Raised NotADirectoryError /\
  (open_read (Path "/repo/docs") hello_checkout).1 = Raised IsADirectoryError /\
  (open_write (Path "/repo/none/x") hello_checkout).1 = Raised FileNotFoundError /\
  (open_write (Path "/repo/README.md/x") hello_checkout).1 = Raised NotADirectoryError /\
  (open_write (Path "/repo/docs") hello_checkout).1 = Raised IsADirectoryError /\
  (open_write (Path "../docs/new.md") hello_checkout).1
  = Returned ["repo"; "docs"; "new.md"].
Proof. vm_compute. repeat split; reflexivity. Qed.

(** [write_text] truncates before it encodes: text that cannot be encoded
    leaves the file empty. *)
Example write_text_truncates_first :
  (@write_text utf8 sep_LF (Path "/repo/docs/index.md") [0xDC80] hello_checkout).1
  = Raised UnicodeEncodeError /\
  content (@write_text utf8 sep_LF (Path "/repo/docs/index.md") [0xDC80] hello_checkout).2
    (Path "/repo/docs/index.md") = Some [].
Proof. vm_compute. split; reflexivity. Qed.

(** ** Octets *)

Lemma octet_to_N (x : byte) : octet (Byte.to_N x) = x.
Proof. unfold octet. now rewrite Byte.of_to_N. Qed.

Lemma to_N_octet (n : N) : n < 256 -> Byte.to_N (octet n) = n.
Proof.
  intros Hn. unfold octet.
  destruct (Byte.of_N n) as [x|] eqn:E.
  - now apply Byte.to_of_N.
  - apply Byte.of_N_None_iff in E. lia.
Qed.

Lemma to_N_lt_256 (x : byte) : Byte.to_N x < 256.
Proof. pose proof (Byte.to_N_bounded x). lia. Qed.

Lemma octet_eq (n : N) (x : byte) : n = Byte.to_N x -> octet n = x.
Proof. intros ->. apply octet_to_N. Qed.

(** ** Encoders built character by character *)

Section encode_with.
Variable enc1 : N -> option bytes.

Lemma encode_with_one c : encode_with enc1 [c] = enc1 c.
Proof. simpl. destruct (enc1 c); [|done]. now rewrite app_nil_r. Qed.

Lemma encode_with_cons c s :
  encode_with enc1 (c :: s) =
    match encode_with enc1 [c], encode_with enc1 s with
    | Some b1, Some b2 => Some (b1 ++ b2)
    | _, _ => None
    end.
Proof. rewrite encode_with_one. reflexivity. Qed.
End encode_with.

(** ** ASCII *)

Lemma ascii_decode_encode b s : ascii_decode b = Some s -> ascii_encode s = Some b.
Proof.
  revert s. induction b as [|x b IH]; intros s; simpl.
  - now intros [= <-].
  - destruct (N.ltb_spec (Byte.to_N x) 128) as [Hx|]; [|done].
    destruct (ascii_decode b) as [s'|]; [|done]. intros [= <-].
    unfold ascii_encode in *. simpl. rewrite (IH s' eq_refl).
    unfold ascii_encode1. apply N.ltb_lt in Hx. rewrite Hx.
    now rewrite octet_to_N.
Qed.

Lemma ascii_encode_decode s b : ascii_encode s = Some b -> ascii_decode b = Some s.
Proof.
  revert b. unfold ascii_encode. induction s as [|c s IH]; intros b; simpl.
  - now intros [= <-].
  - unfold ascii_encode1 at 1. destruct (N.ltb_spec c 128) as [Hc|]; [|done].
    destruct (encode_with ascii_encode1 s) as [b'|]; [|done]. intros [= <-].
    simpl. rewrite to_N_octet by lia. apply N.ltb_lt in Hc. rewrite Hc.
    now rewrite (IH b' eq_refl).
Qed.

(** A code point below 256 other than 13 and 10 is not stored as the octet
    0x0D or 0x0A. *)
Lemma single_octet_other c :
  c < 256 -> c ≠ CR -> c ≠ LF ->
  [octet c] ≠ [] ∧ (byte_CR ∉ [octet c]) ∧ (byte_LF ∉ [octet c]).
Proof.
  intros Hc Hcr Hlf. split; [done|].
  split; intros Hin%list_elem_of_singleton;
    apply (f_equal Byte.to_N) in Hin; rewrite to_N_octet in Hin by lia;
    unfold CR, LF in *; simpl in Hin; lia.
Qed.

Lemma ascii_encode_other c b :
  ascii_encode [c] = Some b -> c ≠ CR -> c ≠ LF ->
  b ≠ [] ∧ (byte_CR ∉ b) ∧ (byte_LF ∉ b).
Proof.
  unfold ascii_encode. rewrite encode_with_one. unfold ascii_encode1.
  destruct (N.ltb_spec c 128) as [Hc|]; [|done]. intros [= <-].
  apply single_octet_other. lia.
Qed.

#[global] Instance ascii_lawful : Lawful ascii.
Proof.
  split.
  - reflexivity.
  - apply encode_with_cons.
  - apply ascii_decode_encode.
  - apply ascii_encode_decode.
  - reflexivity.
  - reflexivity.
  - apply ascii_encode_other.
Qed.

(** ** ISO-8859-1 *)

Lemma latin1_decode_encode b s : latin1_decode b = Some s -> latin1_encode s = Some b.
Proof.
  unfold latin1_decode. intros [= <-]. unfold latin1_encode.
  induction b as [|x b IH]; simpl; [done|]. rewrite IH.
  unfold latin1_encode1. pose proof (to_N_lt_256 x) as Hx.
  apply N.ltb_lt in Hx. rewrite Hx. now rewrite octet_to_N.
Qed.

Lemma latin1_encode_decode s b : latin1_encode s = Some b -> latin1_decode b = Some s.
Proof.
  unfold latin1_decode, latin1_encode. revert b.
  induction s as [|c s IH]; intros b; simpl.
  - now intros [= <-].
  - unfold latin1_encode1 at 1. destruct (N.ltb_spec c 256) as [Hc|]; [|done].
    destruct (encode_with latin1_encode1 s) as [b'|]; [|done]. intros [= <-].
    simpl. rewrite to_N_octet by lia.
    specialize (IH b' eq_refl). now injection IH as ->.
Qed.

Lemma latin1_encode_other c b :
  latin1_encode [c] = Some b -> c ≠ CR -> c ≠ LF ->
  b ≠ [] ∧ (byte_CR ∉ b) ∧ (byte_LF ∉ b).
Proof.
  unfold latin1_encode. rewrite encode_with_one. unfold latin1_encode1.
  destruct (N.ltb_spec c 256) as [Hc|]; [|done]. intros [= <-].
  now apply single_octet_other.
Qed.

#[global] Instance latin1_lawful : Lawful latin1.
Proof.
  split.
  - reflexivity.
  - apply encode_with_cons.
  - apply latin1_decode_encode.
  - apply latin1_encode_decode.
  - reflexivity.
  - reflexivity.
  - apply latin1_encode_other.
Qed.

(** ** UTF-8 *)

#[local] Arguments octet : simpl never.
#[local] Arguments Byte.to_N : simpl never.
#[local] Arguments N.mul : simpl never.
#[local] Arguments N.add : simpl never.
#[local] Arguments N.sub : simpl never.
#[local] Arguments N.div : simpl never.
#[local] Arguments N.modulo : simpl never.
#[local] Arguments N.ltb : simpl never.
#[local] Arguments N.leb : simpl never.

(** Division and remainder by a constant are linear arithmetic. *)
Ltac Zify.zify_post_hook ::= Z.to_euclidean_division_equations.

(** Settle each comparison in the goal from the bounds at hand. *)
Ltac decide_cmp :=
  repeat match goal with
  | |- context [?a <? ?b] =>
      first [ replace (a <? b) with true by (symmetry; apply N.ltb_lt; lia)
            | replace (a <? b) with false by (symmetry; apply N.ltb_ge; lia) ]
  | |- context [?a <=? ?b] =>
      first [ replace (a <=? b) with true by (symmetry; apply N.leb_le; lia)
            | replace (a <=? b) with false by (symmetry; apply N.leb_gt; lia) ]
  end.

Lemma utf8_decode_char c b1 rest :
  utf8_encode1 c = Some b1 ->
  utf8_decode (b1 ++ rest) =
    match utf8_decode rest with Some s => Some (c :: s) | None => None end.
Proof.
  unfold utf8_encode1, is_surrogate.
  destruct (N.ltb_spec c 0x80).
  { intros [= <-]. simpl. rewrite to_N_octet by lia. decide_cmp. done. }
  destruct (N.ltb_spec c 0x800).
  { intros [= <-]. simpl. unfold is_cont, payload, accept, is_surrogate.
    rewrite !to_N_octet by lia. decide_cmp. simpl.
    replace ((192 + c / 64 - 192) * 64 + (128 + c mod 64 - 128)) with c by lia.
    done. }
  destruct (N.ltb_spec c 0x10000).
  { destruct (N.leb_spec 0xD800 c); destruct (N.leb_spec c 0xDFFF); simpl; try done; try lia.
    all: intros [= <-]; simpl; unfold is_cont, payload, accept, is_surrogate;
      rewrite !to_N_octet by lia; decide_cmp; simpl.
    all: replace ((224 + c / 4096 - 224) * 4096 + (128 + (c / 64) mod 64 - 128) * 64 + (128 + c mod 64 - 128)) with c by lia.
    all: decide_cmp; simpl; done. }
  destruct (N.ltb_spec c 0x110000); [|done].
  intros [= <-]; simpl; unfold is_cont, payload, accept, is_surrogate;
      rewrite !to_N_octet by lia; decide_cmp; simpl.
  replace ((240 + c / 262144 - 240) * 262144 + (128 + (c / 4096) mod 64 - 128) * 4096
           + (128 + (c / 64) mod 64 - 128) * 64 + (128 + c mod 64 - 128)) with c by lia.
  decide_cmp; simpl; done.
Qed.

Lemma accept_Some lo c r s :
  accept lo c r = Some s ->
  exists s', r = Some s' /\ s = c :: s' /\ lo <= c /\ c < 0x110000 /\ is_surrogate c = false.
Proof.
  unfold accept.
  destruct (N.leb_spec lo c); simpl; [|done].
  destruct (N.ltb_spec c 0x110000); simpl; [|done].
  destruct (is_surrogate c); simpl; [done|].
  destruct r as [s'|]; [|done]. intros [= <-]. eauto 10.
Qed.

Lemma is_cont_bounds x : is_cont x = true -> 0x80 <= Byte.to_N x < 0xC0.
Proof. unfold is_cont. intros [?%N.leb_le ?%N.ltb_lt]%andb_prop. lia. Qed.

Lemma is_surrogate_false c :
  is_surrogate c = false -> c < 0xD800 \/ 0xDFFF < c.
Proof. unfold is_surrogate. destruct (N.leb_spec 0xD800 c), (N.leb_spec c 0xDFFF); simpl; try done; lia. Qed.

Lemma utf8_encode_cons c s b1 b2 :
  utf8_encode1 c = Some b1 -> utf8_encode s = Some b2 ->
  utf8_encode (c :: s) = Some (b1 ++ b2).
Proof. unfold utf8_encode. simpl. now intros -> ->. Qed.

Lemma utf8_decode_encode_bounded n b s :
  (length b <= n)%nat -> utf8_decode b = Some s -> utf8_encode s = Some b.
Proof.
  revert b s. induction n as [|n IH]; intros b s Hn.
  { destruct b; simpl in Hn; [|lia]. now intros [= <-]. }
  destruct b as [|x0 b1]; [now intros [= <-]|].
  simpl in *. pose proof (to_N_lt_256 x0) as Hx0.
  destruct (N.ltb_spec (Byte.to_N x0) 0x80) as [H1|H1].
  { destruct (utf8_decode b1) as [s'|] eqn:E; [|done]. intros [= <-].
    apply (utf8_encode_cons _ _ [x0]); [|apply IH; [lia|done]].
    unfold utf8_encode1. decide_cmp. now rewrite octet_to_N. }
  destruct (N.ltb_spec (Byte.to_N x0) 0xC0) as [H2|H2]; [done|].
  destruct (N.ltb_spec (Byte.to_N x0) 0xE0) as [H3|H3].
  { destruct b1 as [|x1 b2]; [done|].
    destruct (is_cont x1) eqn:C1; [|done]. apply is_cont_bounds in C1.
    intros (s' & E & -> & Hlo & Hhi & Hs)%accept_Some.
    simpl in Hn.
    apply (utf8_encode_cons _ _ [x0; x1]); [|apply IH; [lia|done]].
    unfold utf8_encode1, payload in *. decide_cmp.
    do 2 f_equal; [|f_equal]; apply octet_eq; lia. }
  destruct (N.ltb_spec (Byte.to_N x0) 0xF0) as [H4|H4].
  { destruct b1 as [|x1 [|x2 b3]]; [done..|].
    destruct (is_cont x1) eqn:C1; [|done]. apply is_cont_bounds in C1.
    destruct (is_cont x2) eqn:C2; [|done]. apply is_cont_bounds in C2.
    simpl. intros (s' & E & -> & Hlo & Hhi & Hs)%accept_Some.
    simpl in Hn.
    apply (utf8_encode_cons _ _ [x0; x1; x2]); [|apply IH; [lia|done]].
    unfold utf8_encode1. rewrite Hs. unfold payload in *. decide_cmp.
    do 2 f_equal; [|f_equal; [|f_equal]]; apply octet_eq; lia. }
  destruct (N.ltb_spec (Byte.to_N x0) 0xF8) as [H5|H5]; [|done].
  destruct b1 as [|x1 [|x2 [|x3 b4]]]; [done..|].
  destruct (is_cont x1) eqn:C1; [|done]. apply is_cont_bounds in C1.
  destruct (is_cont x2) eqn:C2; [|done]. apply is_cont_bounds in C2.
  destruct (is_cont x3) eqn:C3; [|done]. apply is_cont_bounds in C3.
  simpl. intros (s' & E & -> & Hlo & Hhi & Hs)%accept_Some.
  simpl in Hn.
  apply (utf8_encode_cons _ _ [x0; x1; x2; x3]); [|apply IH; [lia|done]].
  unfold utf8_encode1. unfold payload in *. decide_cmp.
  do 2 f_equal; [|f_equal; [|f_equal; [|f_equal]]]; apply octet_eq; lia.
Qed.

Lemma utf8_decode_encode b s : utf8_decode b = Some s -> utf8_encode s = Some b.
Proof. apply (utf8_decode_encode_bounded (length b)). lia. Qed.

Lemma utf8_encode_decode s b : utf8_encode s = Some b -> utf8_decode b = Some s.
Proof.
  revert b. unfold utf8_encode. induction s as [|c s IH]; intros b.
  - now intros [= <-].
  - simpl. destruct (utf8_encode1 c) as [b1|] eqn:E1; [|done].
    destruct (encode_with utf8_encode1 s) as [b2|]; [|done]. intros [= <-].
    rewrite (utf8_decode_char c b1 b2 E1). now rewrite (IH b2 eq_refl).
Qed.

(** An encoded character is either the single octet of an ASCII code point or
    made of octets with the high bit set. *)
Lemma utf8_encode1_octets c b :
  utf8_encode1 c = Some b ->
  b <> [] /\ forall x, x ∈ b -> Byte.to_N x = c \/ 0x80 <= Byte.to_N x.
Proof.
  unfold utf8_encode1.
  destruct (N.ltb_spec c 0x80).
  { intros [= <-]. split; [done|]. intros x ->%list_elem_of_singleton.
    left. apply to_N_octet. lia. }
  assert (forall n l, n < 128 -> (forall y, y ∈ l -> 0x80 <= Byte.to_N y) ->
            forall x, x ∈ octet (128 + n) :: l -> 0x80 <= Byte.to_N x) as Hcons.
  { intros n l Hn Hl x [->|Hin]%elem_of_cons; [|now apply Hl].
    rewrite to_N_octet; lia. }
  assert (forall y : byte, y ∈ @nil byte -> 0x80 <= Byte.to_N y) as Hnil.
  { intros y Hy. now apply elem_of_nil in Hy. }
  destruct (N.ltb_spec c 0x800).
  { intros [= <-]. split; [done|]. intros x Hx. right. revert x Hx.
    replace (0xC0 + c / 64) with (128 + (64 + c / 64)) by lia.
    repeat (apply Hcons; [lia|]). apply Hnil. }
  destruct (N.ltb_spec c 0x10000).
  { destruct (is_surrogate c); [done|].
    intros [= <-]. split; [done|]. intros x Hx. right. revert x Hx.
    replace (0xE0 + c / 4096) with (128 + (96 + c / 4096)) by lia.
    repeat (apply Hcons; [lia|]). apply Hnil. }
  destruct (N.ltb_spec c 0x110000); [|done].
  intros [= <-]. split; [done|]. intros x Hx. right. revert x Hx.
  replace (0xF0 + c / 262144) with (128 + (112 + c / 262144)) by lia.
  repeat (apply Hcons; [lia|]). apply Hnil.
Qed.

Lemma utf8_encode_other c b :
  utf8_encode [c] = Some b -> c ≠ CR -> c ≠ LF ->
  b ≠ [] ∧ (byte_CR ∉ b) ∧ (byte_LF ∉ b).
Proof.
  unfold utf8_encode. rewrite encode_with_one.
  intros [Hne Hb]%utf8_encode1_octets Hcr Hlf. split; [done|].
  unfold CR, LF in *.
  split; intros [E|E]%Hb; vm_compute in E; try lia; congruence.
Qed.

#[global] Instance utf8_lawful : Lawful utf8.
Proof.
  split.
  - reflexivity.
  - apply encode_with_cons.
  - apply utf8_decode_encode.
  - apply utf8_encode_decode.
  - reflexivity.
  - reflexivity.
  - apply utf8_encode_other.
Qed.

(** ** Line endings *)

Section translate_out_facts.
Context {A : Type} {eq_dec : EqDecision A} (lf : A).

Abbreviation t_out := (translate_out lf).

Lemma translate_out_cons_lf sep s : t_out sep (lf :: s) = sep ++ t_out sep s.
Proof. unfold translate_out. simpl. now rewrite decide_True. Qed.

Lemma translate_out_cons_other sep c s : c ≠ lf -> t_out sep (c :: s) = c :: t_out sep s.
Proof. intros Hc. unfold translate_out. simpl. now rewrite decide_False. Qed.

Lemma translate_out_plain sep b rest :
  lf ∉ b -> t_out sep (b ++ rest) = b ++ t_out sep rest.
Proof.
  induction b as [|c b IH]; [done|]. intros Hin. simpl app.
  rewrite translate_out_cons_other by set_solver. f_equal. apply IH. set_solver.
Qed.

Lemma translate_out_lf s : t_out [lf] s = s.
Proof.
  induction s as [|c s IH]; [done|].
  destruct (decide (c = lf)) as [->|Hc].
  - rewrite translate_out_cons_lf. simpl. now rewrite IH.
  - rewrite translate_out_cons_other by done. now rewrite IH.
Qed.
End translate_out_facts.

Section newline_facts.
Context {A : Type} {eq_dec : EqDecision A} (cr lf : A).
Hypothesis cr_lf : cr ≠ lf.

Abbreviation t_in := (translate_in cr lf).

Lemma translate_in_crlf s : t_in (cr :: lf :: s) = lf :: t_in s.
Proof. simpl. now rewrite !decide_True. Qed.

Lemma translate_in_cr c s : c ≠ lf -> t_in (cr :: c :: s) = lf :: t_in (c :: s).
Proof. intros Hc. cbn [translate_in]. rewrite decide_True by done. now rewrite (decide_False (P := c = lf)). Qed.

Lemma translate_in_cr_end : t_in [cr] = [lf].
Proof. simpl. now rewrite decide_True. Qed.

Lemma translate_in_other c s : c ≠ cr -> t_in (c :: s) = c :: t_in s.
Proof. intros Hc. cbn [translate_in]. now rewrite decide_False. Qed.

(** The shapes a text can have, as the translation on input sees it. *)
Lemma line_ending_ind (P : list A -> Prop) :
  P [] ->
  P [cr] ->
  (forall s, P s -> P (cr :: lf :: s)) ->
  (forall c s, c ≠ lf -> P (c :: s) -> P (cr :: c :: s)) ->
  (forall c s, c ≠ cr -> P s -> P (c :: s)) ->
  forall s, P s.
Proof.
  intros Hnil Hend Hcrlf Hcr Hother s.
  assert (forall n s, (length s <= n)%nat -> P s) as Hall;
    [|now apply (Hall (length s))].
  clear s. induction n as [|n IH]; intros [|c s] Hlen; simpl in Hlen;
    try done; try lia.
  destruct (decide (c = cr)) as [->|Hc].
  - destruct s as [|c' s]; [done|].
    destruct (decide (c' = lf)) as [->|Hc'].
    + apply Hcrlf, IH. simpl in Hlen. lia.
    + apply Hcr; [done|]. apply IH. lia.
  - apply Hother; [done|]. apply IH. lia.
Qed.

Lemma translate_in_no_cr s : cr ∉ t_in s.
Proof.
  induction s as [| |s IH|c s Hc IH|c s Hc IH] using line_ending_ind.
  - apply not_elem_of_nil.
  - rewrite translate_in_cr_end. now intros ->%list_elem_of_singleton.
  - rewrite translate_in_crlf. now intros [->|?]%elem_of_cons.
  - rewrite translate_in_cr by done. now intros [->|?]%elem_of_cons.
  - rewrite translate_in_other by done. now intros [->|?]%elem_of_cons.
Qed.

Lemma translate_in_id s : cr ∉ s -> t_in s = s.
Proof.
  induction s as [|c s IH]; [done|]. intros Hin.
  rewrite translate_in_other by set_solver. f_equal. apply IH. set_solver.
Qed.

Lemma translate_in_plain b rest : cr ∉ b -> t_in (b ++ rest) = b ++ t_in rest.
Proof.
  induction b as [|c b IH]; [done|]. intros Hin. simpl app.
  rewrite translate_in_other by set_solver. f_equal. apply IH. set_solver.
Qed.

Lemma translate_in_idemp s : t_in (t_in s) = t_in s.
Proof. apply translate_in_id, translate_in_no_cr. Qed.

(** Reading back what was written: if the text had no carriage return, the
    separators written for its line feeds read back as those line feeds. *)
Lemma translate_in_out_lf s : cr ∉ s -> t_in (translate_out lf [lf] s) = s.
Proof. intros Hs. rewrite translate_out_lf. now apply translate_in_id. Qed.

Lemma translate_in_out_crlf s : cr ∉ s -> t_in (translate_out lf [cr; lf] s) = s.
Proof.
  induction s as [|c s IH]; [done|]. intros Hin.
  destruct (decide (c = lf)) as [->|Hc].
  - rewrite translate_out_cons_lf. simpl app. rewrite translate_in_crlf.
    f_equal. apply IH. set_solver.
  - rewrite translate_out_cons_other by done.
    rewrite translate_in_other by set_solver. f_equal. apply IH. set_solver.
Qed.
End newline_facts.

Lemma CR_LF : CR ≠ LF.
Proof. done. Qed.

Lemma byte_CR_LF : byte_CR ≠ byte_LF.
Proof. done. Qed.

Lemma universal_newlines_no_CR s : CR ∉ universal_newlines s.
Proof. apply translate_in_no_cr, CR_LF. Qed.

(** Text written by [write_text] and read again by [read_text] comes back
    unchanged, provided it holds no carriage return. *)
Lemma read_back_newlines l s :
  CR ∉ s -> universal_newlines (write_newlines l s) = s.
Proof.
  intros Hs. unfold universal_newlines, write_newlines.
  destruct l; simpl.
  - now apply translate_in_out_lf.
  - apply translate_in_out_crlf; [apply CR_LF|done].
Qed.

(** On a platform whose separator is the line feed, content without a
    carriage return has nothing to normalise. *)
Lemma normalize_line_endings_id b :
  byte_CR ∉ b -> normalize_line_endings sep_LF b = b.
Proof.
  intros Hb. unfold normalize_line_endings. simpl.
  rewrite translate_out_lf. now apply translate_in_id.
Qed.


(** ** Encodings and line endings *)

Section codec_facts.
Context {codec : Codec} {lawful : Lawful codec}.

Lemma encode_cons_Some c s b1 b2 :
  encode [c] = Some b1 -> encode s = Some b2 ->
  encode (c :: s) = Some (b1 ++ b2).
Proof. intros E1 E2. now rewrite encode_cons, E1, E2. Qed.

Lemma encode_cons_inv c s b :
  encode (c :: s) = Some b ->
  exists b1 b2, encode [c] = Some b1 /\ encode s = Some b2 /\ b = b1 ++ b2.
Proof.
  rewrite encode_cons.
  destruct (encode [c]) as [b1|]; [|done].
  destruct (encode s) as [b2|]; [|done].
  intros [= <-]. eauto.
Qed.

Lemma encode_app s t b1 b2 :
  encode s = Some b1 -> encode t = Some b2 ->
  encode (s ++ t) = Some (b1 ++ b2).
Proof.
  revert b1. induction s as [|c s IH]; intros b1.
  - rewrite encode_nil. now intros [= <-].
  - intros (bc & bs & Ec & Es & ->)%encode_cons_inv Et. simpl app.
    rewrite <- app_assoc. apply encode_cons_Some; [done|]. now apply IH.
Qed.


Lemma encode_CR_inv s b :
  encode (CR :: s) = Some b ->
  exists b', encode s = Some b' /\ b = byte_CR :: b'.
Proof.
  intros (b1 & b2 & E1 & E2 & ->)%encode_cons_inv.
  rewrite encode_CR in E1. injection E1 as <-. eauto.
Qed.

Lemma encode_LF_inv s b :
  encode (LF :: s) = Some b ->
  exists b', encode s = Some b' /\ b = byte_LF :: b'.
Proof.
  intros (b1 & b2 & E1 & E2 & ->)%encode_cons_inv.
  rewrite encode_LF in E1. injection E1 as <-. eauto.
Qed.

(** Universal-newline translation of the text is universal-newline
    translation of its octets. *)
Lemma encode_universal_newlines s :
  forall b, encode s = Some b ->
  encode (universal_newlines s) = Some (translate_in byte_CR byte_LF b).
Proof.
  unfold universal_newlines.
  induction s as [| |s IH|c s Hc IH|c s Hc IH] using (line_ending_ind CR LF);
    intros b.
  - rewrite encode_nil. intros [= <-]. apply encode_nil.
  - rewrite encode_CR. intros [= <-]. apply encode_LF.
  - intros (b1 & (b2 & E2 & ->)%encode_LF_inv & ->)%encode_CR_inv.
    rewrite !translate_in_crlf by done.
    now apply (encode_cons_Some LF _ [byte_LF]); [apply encode_LF|apply IH].
  - intros (b1 & E1 & ->)%encode_CR_inv.
    rewrite translate_in_cr by done.
    pose proof E1 as (bc & bs & Ec & Es & ->)%encode_cons_inv.
    assert (exists x bc', bc = x :: bc' /\ x ≠ byte_LF) as (x & bc' & -> & Hx).
    { destruct (decide (c = CR)) as [->|Hcr].
      - rewrite encode_CR in Ec. injection Ec as <-. by eexists _, _.
      - destruct (encode_other c bc Ec Hcr Hc) as (Hne & _ & Hlf).
        destruct bc as [|x bc']; [done|]. exists x, bc'. split; [done|].
        set_solver. }
    simpl app. rewrite translate_in_cr by done.
    apply (encode_cons_Some LF _ [byte_LF]); [apply encode_LF|].
    now apply IH.
  - intros (bc & bs & Ec & Es & ->)%encode_cons_inv.
    rewrite translate_in_other by done.
    destruct (decide (c = LF)) as [->|Hlf].
    + rewrite encode_LF in Ec. injection Ec as <-. simpl app.
      rewrite translate_in_other by done.
      apply (encode_cons_Some LF _ [byte_LF]); [apply encode_LF|].
      now apply IH.
    + destruct (encode_other c bc Ec Hc Hlf) as (_ & Hcr & _).
      rewrite translate_in_plain by done.
      apply encode_cons_Some; [done|]. now apply IH.
Qed.

Lemma encode_linesep l : encode (linesep_text l) = Some (linesep_bytes l).
Proof.
  destruct l; simpl; [apply encode_LF|].
  apply (encode_cons_Some CR [LF] [byte_CR] [byte_LF]);
    [apply encode_CR|apply encode_LF].
Qed.

(** Translation on output, likewise. It needs no carriage return in the
    text: [universal_newlines] sees to that. *)
Lemma encode_write_newlines l s :
  forall b, CR ∉ s -> encode s = Some b ->
  encode (write_newlines l s) = Some (translate_out byte_LF (linesep_bytes l) b).
Proof.
  unfold write_newlines. induction s as [|c s IH]; intros b Hs.
  - rewrite encode_nil. intros [= <-]. apply encode_nil.
  - intros (bc & bs & Ec & Es & ->)%encode_cons_inv.
    destruct (decide (c = LF)) as [->|Hlf].
    + rewrite encode_LF in Ec. injection Ec as <-. simpl app.
      rewrite !translate_out_cons_lf.
      apply encode_app; [apply encode_linesep|]. apply IH; [set_solver|done].
    + rewrite translate_out_cons_other by done.
      destruct (encode_other c bc Ec) as (_ & _ & Hb); [set_solver|done|].
      rewrite translate_out_plain by done.
      apply encode_cons_Some; [done|]. apply IH; [set_solver|done].
Qed.

(** What [write_text] stores when handed what [read_text] returned for a
    file holding [b]. *)
Lemma encode_copied_text l b s :
  decode b = Some s ->
  encode (write_newlines l (universal_newlines s))
  = Some (normalize_line_endings l b).
Proof.
  intros Hd%decode_encode.
  apply encode_write_newlines; [apply universal_newlines_no_CR|].
  now apply encode_universal_newlines.
Qed.
End codec_facts.

(** ** Paths and the path walk *)

Lemma truediv_name p (s : string) :
  absolute (Path s) = false ->
  (p / s)%path = {| absolute := absolute p; parts := parts p ++ parts (Path s) |}.
Proof. unfold truediv. now intros ->. Qed.

Lemma removelast_two {A} (ds : list A) d f :
  removelast (removelast (ds ++ [d; f])) = ds.
Proof.
  rewrite removelast_app by done. simpl.
  now rewrite removelast_app, app_nil_r by done.
Qed.

Lemma namei_app fs wd a ps qs :
  namei fs wd {| absolute := a; parts := ps ++ qs |}
  = fold_left (walk_step fs) qs (namei fs wd {| absolute := a; parts := ps |}).
Proof. unfold namei. simpl. apply fold_left_app. Qed.

Lemma namei_eta fs wd p :
  namei fs wd {| absolute := absolute p; parts := parts p |} = namei fs wd p.
Proof. reflexivity. Qed.

(** The walk of an absolute path never consults the working directory. *)
Lemma namei_absolute fs wd wd' p :
  absolute p = true -> namei fs wd p = namei fs wd' p.
Proof. unfold namei. now intros ->. Qed.

Lemma node_at_snoc fs (r : list string) x : node_at fs (r ++ [x]) = fs !! (r ++ [x]).
Proof. now destruct r. Qed.

Lemma node_at_app_cons fs (r : list string) x l :
  node_at fs (r ++ x :: l) = fs !! (r ++ x :: l).
Proof. now destruct r. Qed.

Lemma node_at_insert_ne fs (dst loc : list string) x :
  loc ≠ dst -> node_at (<[dst := x]> fs) loc = node_at fs loc.
Proof. intros Hne. destruct loc; [done|]. simpl. now apply lookup_insert_ne. Qed.

Lemma node_at_insert_dir fs (dst loc : list string) b :
  node_at fs dst ≠ Some Dir -> node_at fs loc = Some Dir ->
  node_at (<[dst := File b]> fs) loc = Some Dir.
Proof.
  intros Hdst Hloc. rewrite node_at_insert_ne; [done|]. now intros ->.
Qed.

Lemma walk_step_name fs r name :
  String.eqb name ".." = false -> is_name name = true ->
  walk_step fs (Returned r) name = descend fs r name.
Proof.
  intros E1 E2. unfold walk_step, descend. rewrite E1, E2.
  now destruct (node_at fs r) as [[]|].
Qed.

Lemma fold_walk_raised fs ps (e : exn) :
  fold_left (walk_step fs) ps (Raised e) = Raised e.
Proof. induction ps as [|p ps IH]; [done|]. simpl. apply IH. Qed.

(** A walk that succeeded went through directories only, so creating or
    rewriting a regular file leaves it as it was. *)
Lemma fold_walk_insert_file fs dst b ps acc loc :
  node_at fs dst ≠ Some Dir ->
  fold_left (walk_step fs) ps acc = Returned loc ->
  fold_left (walk_step (<[dst := File b]> fs)) ps acc = Returned loc.
Proof.
  intros Hdst. revert acc. induction ps as [|p ps IH]; intros acc; [done|].
  simpl. destruct acc as [cur|e]; simpl.
  - destruct (node_at fs cur) as [[|]|] eqn:E;
      try (rewrite fold_walk_raised; discriminate).
    rewrite (node_at_insert_dir _ _ _ _ Hdst E). apply IH.
  - now rewrite fold_walk_raised.
Qed.

Lemma namei_insert_file fs wd dst b p loc :
  node_at fs dst ≠ Some Dir ->
  namei fs wd p = Returned loc ->
  namei (<[dst := File b]> fs) wd p = Returned loc.
Proof. intros Hdst. apply fold_walk_insert_file, Hdst. Qed.

Lemma source_not_destination (r : list string) :
  r ++ ["README.md"] ≠ r ++ ["docs"; "index.md"].
Proof. now intros ?%app_inv_head. Qed.

Lemma docs_not_destination (r : list string) :
  r ++ ["docs"] ≠ r ++ ["docs"; "index.md"].
Proof. now intros ?%app_inv_head. Qed.

Lemma isdir_inv w p :
  isdir w p = true ->
  exists r, resolve w p = Returned r /\ node_at (files w) r = Some Dir.
Proof.
  unfold isdir. destruct (resolve w p) as [r|]; [|done].
  destruct (node_at (files w) r) as [[|]|] eqn:E; try done.
  intros _. now exists r.
Qed.

(** ** Where the script's paths lead *)

Section script_paths.
Variable __file__ : string.

Lemma resolve_README w :
  resolve w (README __file__) =
    match resolve w (ROOT __file__) with
    | Returned r => descend (files w) r "README.md"
    | Raised e => Raised e
    end.
Proof.
  unfold resolve, README. rewrite truediv_name by reflexivity.
  rewrite namei_app, namei_eta. simpl.
  destruct (namei _ _ _) as [r|e]; [|done].
  now apply walk_step_name.
Qed.

Lemma resolve_docs w :
  resolve w (docs __file__) =
    match resolve w (ROOT __file__) with
    | Returned r => descend (files w) r "docs"
    | Raised e => Raised e
    end.
Proof.
  unfold resolve, docs. rewrite truediv_name by reflexivity.
  rewrite namei_app, namei_eta. simpl.
  destruct (namei _ _ _) as [r|e]; [|done].
  now apply walk_step_name.
Qed.

Lemma resolve_index_md w :
  resolve w (index_md __file__) =
    match resolve w (ROOT __file__) with
    | Returned r =>
        match descend (files w) r "docs" with
        | Returned d => descend (files w) d "index.md"
        | Raised e => Raised e
        end
    | Raised e => Raised e
    end.
Proof.
  unfold resolve, index_md. rewrite !truediv_name by reflexivity.
  cbn [absolute parts]. rewrite !namei_app, namei_eta. simpl.
  destruct (namei _ _ _) as [r|e]; [|done].
  rewrite walk_step_name by reflexivity.
  destruct (descend _ r _) as [d|e]; [|done].
  now apply walk_step_name.
Qed.
End script_paths.

(** ** Reading and writing text *)

Section text_io_facts.
Context {codec : Codec}.

Lemma read_text_eval p w :
  read_text p w =
    match resolve w p with
    | Raised e => (Raised e, w)
    | Returned loc =>
        match node_at (files w) loc with
        | None => (Raised FileNotFoundError, w)
        | Some Dir => (Raised IsADirectoryError, w)
        | Some (File b) =>
            match decode b with
            | None => (Raised UnicodeDecodeError, log (Opened O_RDONLY loc) w)
            | Some s => (Returned (universal_newlines s), log (Opened O_RDONLY loc) w)
            end
        end
    end.
Proof.
  unfold read_text, mbind, mret, IO_bind, IO_ret, bind, ret, raise, open_read, resolve.
  destruct (namei _ _ p) as [loc|]; [|done].
  destruct (node_at _ loc) as [[b|]|]; try done.
  now destruct (decode b).
Qed.

(** Reading never changes the disk. *)
Lemma read_text_disk p w o w1 :
  read_text p w = (o, w1) -> files w1 = files w /\ cwd w1 = cwd w.
Proof.
  rewrite read_text_eval. repeat case_match; intros [= <- <-]; done.
Qed.

Lemma write_text_eval linesep p data w :
  write_text linesep p data w =
    match resolve w p with
    | Raised e => (Raised e, w)
    | Returned loc =>
        match node_at (files w) loc with
        | Some Dir => (Raised IsADirectoryError, w)
        | _ =>
            match encode (write_newlines linesep data) with
            | None =>
                (Raised UnicodeEncodeError,
                 log (Opened O_WRONLY_CREAT_TRUNC loc) (store loc [] w))
            | Some b =>
                (Returned (length data),
                 store loc b (log (Opened O_WRONLY_CREAT_TRUNC loc) (store loc [] w)))
            end
        end
    end.
Proof.
  unfold write_text, mbind, mret, IO_bind, IO_ret, bind, ret, raise, open_write,
    write_all, resolve.
  destruct (namei _ _ p) as [loc|]; [|done].
  destruct (node_at _ loc) as [[b|]|]; try done;
    now destruct (encode _).
Qed.
End text_io_facts.

(** ** One run of the script *)

Section run_facts.
Context {codec : Codec} (linesep : line_separator) (__file__ : string).

(** The whole behaviour of [prepare_index_file], case by case, in the order
    in which the interpreter and the kernel meet the cases. *)
Lemma prepare_index_file_eval w :
  prepare_index_file linesep __file__ w =
    match resolve w (ROOT __file__) with
    | Raised e => (Raised e, w)
    | Returned r =>
        let src := r ++ ["README.md"] in
        let dst := r ++ ["docs"; "index.md"] in
        match node_at (files w) r with
        | None => (Raised FileNotFoundError, w)
        | Some (File _) => (Raised NotADirectoryError, w)
        | Some Dir =>
            match files w !! src with
            | None => (Raised FileNotFoundError, w)
            | Some Dir => (Raised IsADirectoryError, w)
            | Some (File b) =>
                let w1 := log (Opened O_RDONLY src) w in
                match decode b with
                | None => (Raised UnicodeDecodeError, w1)
                | Some s =>
                    match files w !! (r ++ ["docs"]) with
                    | None => (Raised FileNotFoundError, w1)
                    | Some (File _) => (Raised NotADirectoryError, w1)
                    | Some Dir =>
                        match files w !! dst with
                        | Some Dir => (Raised IsADirectoryError, w1)
                        | _ =>
                            match encode (write_newlines linesep (universal_newlines s)) with
                            | Some nb => (Returned tt, copied w src dst nb)
                            | None => (Raised UnicodeEncodeError, copied w src dst [])
                            end
                        end
                    end
                end
            end
        end
    end.
Proof.
  unfold prepare_index_file, mbind, mret, IO_bind, IO_ret, bind, ret.
  change (ROOT __file__ / "README.md")%path with (README __file__).
  change (ROOT __file__ / "docs" / "index.md")%path with (index_md __file__).
  rewrite read_text_eval, resolve_README.
  destruct (resolve w (ROOT __file__)) as [r|e] eqn:ER; [|done].
  unfold descend. destruct (node_at (files w) r) as [[|]|] eqn:Er; try done.
  cbn zeta. rewrite node_at_snoc.
  destruct (files w !! (r ++ ["README.md"])) as [[b|]|] eqn:Esrc; try done.
  destruct (decode b) as [s|] eqn:Eb; [|done].
  set (w1 := log _ w).
  rewrite write_text_eval, resolve_index_md.
  change (resolve w1 (ROOT __file__)) with (resolve w (ROOT __file__)).
  rewrite ER. change (files w1) with (files w). unfold descend.
  rewrite Er, node_at_snoc.
  destruct (files w !! (r ++ ["docs"])) as [[|]|] eqn:Edocs; try done.
  rewrite node_at_snoc, <- app_assoc. simpl app.
  assert (forall x,
            store (r ++ ["docs"; "index.md"]) x
              (log (Opened O_WRONLY_CREAT_TRUNC (r ++ ["docs"; "index.md"]))
                 (store (r ++ ["docs"; "index.md"]) [] w1))
            = copied w (r ++ ["README.md"]) (r ++ ["docs"; "index.md"]) x) as Hfinal.
  { intros x. unfold store, log, copied, w1. simpl.
    rewrite insert_insert_eq, <- app_assoc. reflexivity. }
  assert (log (Opened O_WRONLY_CREAT_TRUNC (r ++ ["docs"; "index.md"]))
            (store (r ++ ["docs"; "index.md"]) [] w1)
          = copied w (r ++ ["README.md"]) (r ++ ["docs"; "index.md"]) []) as Htrunc.
  { unfold store, log, copied, w1. simpl. now rewrite <- app_assoc. }
  destruct (files w !! (r ++ ["docs"; "index.md"])) as [[|]|] eqn:Edst; try done;
    destruct (encode _); now rewrite ?Hfinal, ?Htrunc.
Qed.

Lemma prepare_ready w r b s :
  ready __file__ w r b s ->
  prepare_index_file linesep __file__ w =
    match encode (write_newlines linesep (universal_newlines s)) with
    | Some nb =>
        (Returned tt, copied w (r ++ ["README.md"]) (r ++ ["docs"; "index.md"]) nb)
    | None =>
        (Raised UnicodeEncodeError,
         copied w (r ++ ["README.md"]) (r ++ ["docs"; "index.md"]) [])
    end.
Proof.
  intros (ER & Er & Esrc & Eb & Edocs & Edst).
  rewrite prepare_index_file_eval, ER. cbn zeta.
  rewrite Er, Esrc, Eb, Edocs.
  now destruct (files w !! (r ++ ["docs"; "index.md"])) as [[|]|].
Qed.

(** Either the copy reaches the point of writing, or the run raises with
    the disk as it was. *)
Lemma prepare_cases w :
  (exists r b s, ready __file__ w r b s) \/
  (exists e w', prepare_index_file linesep __file__ w = (Raised e, w') /\
                files w' = files w /\ cwd w' = cwd w).
Proof.
  rewrite prepare_index_file_eval. cbn zeta.
  destruct (resolve w (ROOT __file__)) as [r|] eqn:ER; [|right; by eauto].
  destruct (node_at (files w) r) as [[|]|] eqn:Er; [right; by eauto| |right; by eauto].
  destruct (files w !! (r ++ ["README.md"])) as [[b|]|] eqn:Esrc;
    [|right; by eauto..].
  destruct (decode b) as [s|] eqn:Eb; [|right; by eauto].
  destruct (files w !! (r ++ ["docs"])) as [[|]|] eqn:Edocs;
    [right; by eauto| |right; by eauto].
  destruct (files w !! (r ++ ["docs"; "index.md"])) as [[|]|] eqn:Edst;
    [|right; by eauto|];
    left; exists r, b, s; unfold ready; rewrite Esrc, Edocs, Edst; done.
Qed.

Lemma prepare_returns_inv w w' :
  prepare_index_file linesep __file__ w = (Returned tt, w') ->
  exists r b s nb,
    ready __file__ w r b s /\
    encode (write_newlines linesep (universal_newlines s)) = Some nb /\
    w' = copied w (r ++ ["README.md"]) (r ++ ["docs"; "index.md"]) nb.
Proof.
  destruct (prepare_cases w) as [(r & b & s & Hr)|(e & w1 & -> & _)]; [|done].
  rewrite (prepare_ready w r b s Hr).
  destruct (encode _) as [nb|] eqn:E; [|done].
  intros [= <-]. by exists r, b, s, nb.
Qed.

(** The trace is only written, never consulted. *)
Lemma prepare_same_disk w1 w2 :
  files w1 = files w2 -> cwd w1 = cwd w2 ->
  (prepare_index_file linesep __file__ w1).1 = (prepare_index_file linesep __file__ w2).1 /\
  files (prepare_index_file linesep __file__ w1).2
  = files (prepare_index_file linesep __file__ w2).2.
Proof.
  intros Hf Hc. rewrite !prepare_index_file_eval. unfold resolve.
  rewrite Hf, Hc. cbn zeta.
  repeat case_match; simpl; rewrite ?Hf; done.
Qed.

Lemma ready_resolve w r b s :
  ready __file__ w r b s ->
  resolve w (README __file__) = Returned (r ++ ["README.md"]) /\
  resolve w (index_md __file__) = Returned (r ++ ["docs"; "index.md"]) /\
  content w (README __file__) = Some b.
Proof.
  intros (ER & Er & Esrc & _ & Edocs & _).
  assert (resolve w (README __file__) = Returned (r ++ ["README.md"])) as E1.
  { rewrite resolve_README, ER. unfold descend. now rewrite Er. }
  split; [done|]. split.
  - rewrite resolve_index_md, ER. unfold descend.
    rewrite Er, node_at_snoc, Edocs. now rewrite <- app_assoc.
  - unfold content. now rewrite E1, node_at_snoc, Esrc.
Qed.

(** After the copy the disk is again one on which the copy reaches the point
    of writing, and both paths still name the same locations. *)
Lemma ready_copied w r b s nb :
  ready __file__ w r b s ->
  ready __file__ (copied w (r ++ ["README.md"]) (r ++ ["docs"; "index.md"]) nb) r b s.
Proof.
  intros (ER & Er & Esrc & Eb & Edocs & Edst).
  assert (node_at (files w) (r ++ ["docs"; "index.md"]) ≠ Some Dir) as Hdst.
  { now rewrite node_at_app_cons. }
  unfold ready, copied, resolve in *. simpl.
  split; [now apply namei_insert_file|].
  split; [now apply node_at_insert_dir|].
  split; [rewrite lookup_insert_ne; [done|]; apply not_eq_sym, source_not_destination|].
  split; [done|].
  split; [rewrite lookup_insert_ne; [done|]; apply not_eq_sym, docs_not_destination|].
  now rewrite lookup_insert_eq.
Qed.

Lemma copied_content w r b s nb :
  ready __file__ w r b s ->
  resolve (copied w (r ++ ["README.md"]) (r ++ ["docs"; "index.md"]) nb)
    (index_md __file__) = Returned (r ++ ["docs"; "index.md"]) /\
  content (copied w (r ++ ["README.md"]) (r ++ ["docs"; "index.md"]) nb)
    (index_md __file__) = Some nb /\
  content (copied w (r ++ ["README.md"]) (r ++ ["docs"; "index.md"]) nb)
    (README __file__) = Some b.
Proof.
  intros Hr. pose proof (ready_copied w r b s nb Hr) as Hr'.
  destruct (ready_resolve _ _ _ _ Hr') as (_ & E2 & Eb).
  split; [done|]. split; [|done].
  unfold content. rewrite E2. unfold copied. simpl.
  rewrite node_at_app_cons. now rewrite lookup_insert_eq.
Qed.

(** A read that fails ends the run, with the disk untouched. *)
Lemma failed_read_ends_run w e w1 :
  read_text (README __file__) w = (Raised e, w1) ->
  prepare_index_file linesep __file__ w = (Raised e, w1) /\ files w1 = files w.
Proof.
  intros Hread. split; [|now apply read_text_disk in Hread].
  unfold prepare_index_file, mbind, IO_bind, bind.
  change (ROOT __file__ / "README.md")%path with (README __file__).
  now rewrite Hread.
Qed.

End run_facts.

(** ** One run, with an encoding that inverts *)

Section lawful_run_facts.
Context {codec : Codec} {lawful : Lawful codec}.
Context (linesep : line_separator) (__file__ : string).

Lemma prepare_ready_lawful w r b s :
  ready __file__ w r b s ->
  prepare_index_file linesep __file__ w =
    (Returned tt,
     copied w (r ++ ["README.md"]) (r ++ ["docs"; "index.md"])
       (normalize_line_endings linesep b)).
Proof.
  intros Hr. rewrite (prepare_ready linesep __file__ w r b s Hr).
  destruct Hr as (_ & _ & _ & Eb & _).
  now rewrite (encode_copied_text linesep b s Eb).
Qed.

(** What a successful run leaves in the index, in terms of what the README
    held. *)
Lemma prepare_returns_content w w' :
  prepare_index_file linesep __file__ w = (Returned tt, w') ->
  exists C,
    content w (README __file__) = Some C /\
    content w' (index_md __file__) = Some (normalize_line_endings linesep C) /\
    (read_text (index_md __file__) w').1 = (read_text (README __file__) w).1.
Proof.
  intros (r & b & s & nb & Hr & Henc & ->)%prepare_returns_inv. exists b.
  destruct (ready_resolve _ _ _ _ _ Hr) as (E1 & E2 & Eb).
  destruct (copied_content _ _ _ _ _ nb Hr) as (E2' & Ec & _).
  pose proof Hr as (_ & _ & Esrc & Es & _).
  rewrite (encode_copied_text linesep b s Es) in Henc. injection Henc as <-.
  split; [done|]. split; [done|].
  rewrite !read_text_eval, E1, E2', node_at_snoc, Esrc, Es.
  unfold copied at 1. cbn [files]. rewrite node_at_app_cons, lookup_insert_eq.
  pose proof (encode_copied_text linesep b s Es) as Hdec%encode_decode.
  rewrite Hdec. simpl. f_equal.
  apply read_back_newlines, universal_newlines_no_CR.
Qed.
End lawful_run_facts.

Section more_run_facts.
Context {codec : Codec} (linesep : line_separator) (__file__ : string).

Lemma prepare_cwd w : cwd (prepare_index_file linesep __file__ w).2 = cwd w.
Proof.
  rewrite prepare_index_file_eval. cbn zeta. repeat case_match; done.
Qed.

(** The run opens at most two files, and exactly the two of the copy when it
    returns. *)
Lemma prepare_trace w :
  exists evs,
    trace (prepare_index_file linesep __file__ w).2 = trace w ++ evs /\
    (length evs <= 2)%nat.
Proof.
  rewrite prepare_index_file_eval. cbn zeta.
  repeat case_match; simpl;
    first [ exists []; rewrite app_nil_r; split; [done|simpl; lia]
          | eexists [_]; split; [done|simpl; lia]
          | eexists [_; _]; split; [done|simpl; lia] ].
Qed.
End more_run_facts.

(** ** The script on a disk with links *)

Lemma write_through_cons b fs (l0 : list string) locs :
  Linked.write_through b fs (l0 :: locs) =
    match fs !! l0 with
    | Some (File _) => <[l0 := File b]> (Linked.write_through b fs locs)
    | _ => Linked.write_through b fs locs
    end.
Proof. reflexivity. Qed.

Lemma lookup_write_through b fs locs (l : list string) :
  Linked.write_through b fs locs !! l =
    if decide (l ∈ locs)
    then match fs !! l with Some (File _) => Some (File b) | o => o end
    else fs !! l.
Proof.
  induction locs as [|l0 locs IH].
  - case_decide as Hin; [|done]. now apply elem_of_nil in Hin.
  - rewrite write_through_cons.
    destruct (decide (l = l0)) as [->|Hne].
    + rewrite (decide_True (P := l0 ∈ l0 :: locs)) by apply list_elem_of_here.
      destruct (fs !! l0) as [[c|]|] eqn:E0.
      * now rewrite lookup_insert_eq.
      * rewrite IH. now case_decide.
      * rewrite IH. now case_decide.
    + assert (match fs !! l0 with
              | Some (File _) => <[l0 := File b]> (Linked.write_through b fs locs)
              | _ => Linked.write_through b fs locs
              end !! l = Linked.write_through b fs locs !! l) as ->.
      { destruct (fs !! l0) as [[c|]|]; [|done..].
        now rewrite lookup_insert_ne. }
      rewrite IH. destruct (decide (l ∈ locs)) as [Hin|Hout].
      * now rewrite decide_True by now apply list_elem_of_further.
      * rewrite decide_False; [done|]. now intros [?|?]%elem_of_cons.
Qed.

Lemma write_through_nil b fs : Linked.write_through b fs [] = fs.
Proof. reflexivity. Qed.

Lemma lookup_write_through_other b fs locs (l : list string) :
  l ∉ locs -> Linked.write_through b fs locs !! l = fs !! l.
Proof. intros Hl. rewrite lookup_write_through. now rewrite decide_False. Qed.

(** Directories stay directories, and nothing becomes one. *)
Lemma lookup_write_through_dir b fs locs (l : list string) :
  Linked.write_through b fs locs !! l = Some Dir <-> fs !! l = Some Dir.
Proof.
  rewrite lookup_write_through. case_decide; [|done].
  destruct (fs !! l) as [[c|]|]; split; done.
Qed.

(** Truncating and then writing leaves what writing alone leaves. *)
Lemma write_after_truncate b fs locs (dst : list string) :
  <[dst := File b]>
    (Linked.write_through b (<[dst := File []]> (Linked.write_through [] fs locs)) locs)
  = <[dst := File b]> (Linked.write_through b fs locs).
Proof.
  apply map_eq. intros l. destruct (decide (l = dst)) as [->|Hne].
  - now rewrite !lookup_insert_eq.
  - rewrite !lookup_insert_ne by done. rewrite !lookup_write_through.
    rewrite lookup_insert_ne by done. rewrite lookup_write_through.
    case_decide; [|done].
    now destruct (fs !! l) as [[c|]|].
Qed.

(** A walk that succeeded succeeds alike on a disk with the same
    directories and more. *)
Lemma fold_walk_same_dirs fs fs' ps acc loc :
  (forall l, node_at fs l = Some Dir -> node_at fs' l = Some Dir) ->
  fold_left (walk_step fs) ps acc = Returned loc ->
  fold_left (walk_step fs') ps acc = Returned loc.
Proof.
  intros Hdirs. revert acc. induction ps as [|p ps IH]; intros acc; [done|].
  simpl. destruct acc as [cur|e]; simpl.
  - destruct (node_at fs cur) as [[|]|] eqn:E;
      try (rewrite fold_walk_raised; discriminate).
    rewrite (Hdirs _ E). apply IH.
  - now rewrite fold_walk_raised.
Qed.

Lemma node_at_copied_dir w src dst b (l : list string) :
  node_at (files (Linked.disk w)) dst ≠ Some Dir ->
  node_at (files (Linked.disk w)) l = Some Dir ->
  node_at (files (Linked.disk (Linked.copied w src dst b))) l = Some Dir.
Proof.
  intros Hdst Hl. destruct l as [|x l]; [done|].
  assert (dst <> x :: l) as Hne by (intros ->; done).
  simpl in *. rewrite lookup_insert_ne by done.
  now apply lookup_write_through_dir.
Qed.

Section linked_run_facts.
Context {codec : Codec} (linesep : line_separator) (__file__ : string).

Lemma linked_read_text p w :
  Linked.read_text p w = Linked.on_disk (read_text p) w.
Proof.
  unfold Linked.read_text, read_text, Linked.on_disk, Linked.open_read.
  unfold mbind, mret, Linked.IO_bind, Linked.IO_ret, IO_bind, IO_ret.
  unfold Linked.bind, Linked.ret, Linked.raise, bind, ret, raise, Linked.on_disk.
  destruct (open_read p (Linked.disk w)) as [[b|e] d]; [|done].
  now destruct (decode b).
Qed.

Lemma linked_write_text_eval p data w :
  Linked.write_text linesep p data w =
    match resolve (Linked.disk w) p with
    | Raised e => (Raised e, w)
    | Returned loc =>
        match node_at (files (Linked.disk w)) loc with
        | Some Dir => (Raised IsADirectoryError, w)
        | _ =>
            match encode (write_newlines linesep data) with
            | None =>
                (Raised UnicodeEncodeError,
                 Linked.log (Opened O_WRONLY_CREAT_TRUNC loc) (Linked.store loc [] w))
            | Some b =>
                (Returned (length data),
                 Linked.store loc b
                   (Linked.log (Opened O_WRONLY_CREAT_TRUNC loc) (Linked.store loc [] w)))
            end
        end
    end.
Proof.
  unfold Linked.write_text, Linked.open_write, Linked.write_all, resolve.
  unfold mbind, mret, Linked.IO_bind, Linked.IO_ret.
  unfold Linked.bind, Linked.ret, Linked.raise.
  destruct (namei _ _ p) as [loc|]; [|done].
  destruct (node_at _ loc) as [[b|]|]; try done;
    now destruct (encode _).
Qed.

(** A run on a disk with links, when the disk is one on which the copy
    reaches the point of writing. *)
Lemma linked_prepare_ready w r b s :
  ready __file__ (Linked.disk w) r b s ->
  Linked.prepare_index_file linesep __file__ w =
    match encode (write_newlines linesep (universal_newlines s)) with
    | Some nb =>
        (Returned tt,
         Linked.copied w (r ++ ["README.md"]) (r ++ ["docs"; "index.md"]) nb)
    | None =>
        (Raised UnicodeEncodeError,
         Linked.copied w (r ++ ["README.md"]) (r ++ ["docs"; "index.md"]) [])
    end.
Proof.
  intros Hr. destruct (ready_resolve _ _ _ _ _ Hr) as (E1 & E2 & _).
  destruct Hr as (ER & Er & Esrc & Es & Edocs & Edst).
  unfold Linked.prepare_index_file.
  unfold mbind at 1. unfold Linked.IO_bind, Linked.bind.
  change (ROOT __file__ / "README.md")%path with (README __file__).
  change (ROOT __file__ / "docs" / "index.md")%path with (index_md __file__).
  rewrite linked_read_text. unfold Linked.on_disk.
  rewrite read_text_eval, E1, node_at_snoc, Esrc, Es.
  unfold mbind, mret, Linked.IO_bind, Linked.IO_ret, Linked.bind, Linked.ret.
  rewrite linked_write_text_eval. cbn [Linked.disk].
  change (resolve (log _ (Linked.disk w)) (index_md __file__))
    with (resolve (Linked.disk w) (index_md __file__)).
  rewrite E2. cbn [files log]. rewrite node_at_app_cons.
  assert (forall x,
            Linked.store (r ++ ["docs"; "index.md"]) x
              (Linked.log (Opened O_WRONLY_CREAT_TRUNC (r ++ ["docs"; "index.md"]))
                 (Linked.store (r ++ ["docs"; "index.md"]) []
                    {| Linked.disk := log (Opened O_RDONLY (r ++ ["README.md"])) (Linked.disk w);
                       Linked.other_names := Linked.other_names w |}))
            = Linked.copied w (r ++ ["README.md"]) (r ++ ["docs"; "index.md"]) x) as Hfinal.
  { intros x. unfold Linked.store, Linked.log, Linked.copied, Linked.names_of, log.
    simpl. rewrite write_after_truncate, <- app_assoc. reflexivity. }
  assert (Linked.log (Opened O_WRONLY_CREAT_TRUNC (r ++ ["docs"; "index.md"]))
            (Linked.store (r ++ ["docs"; "index.md"]) []
               {| Linked.disk := log (Opened O_RDONLY (r ++ ["README.md"])) (Linked.disk w);
                  Linked.other_names := Linked.other_names w |})
          = Linked.copied w (r ++ ["README.md"]) (r ++ ["docs"; "index.md"]) []) as Htrunc.
  { unfold Linked.store, Linked.log, Linked.copied, Linked.names_of, log.
    simpl. now rewrite <- app_assoc. }
  destruct (files (Linked.disk w) !! (r ++ ["docs"; "index.md"])) as [[|]|] eqn:E;
    try done; destruct (encode _); now rewrite ?Hfinal, ?Htrunc.
Qed.

(** Otherwise the run is the run on the disk alone, and it raises. *)
Lemma linked_prepare_not_ready w :
  (forall r b s, ~ ready __file__ (Linked.disk w) r b s) ->
  Linked.prepare_index_file linesep __file__ w
  = Linked.on_disk (prepare_index_file linesep __file__) w /\
  exists e d,
    prepare_index_file linesep __file__ (Linked.disk w) = (Raised e, d) /\
    files d = files (Linked.disk w) /\ cwd d = cwd (Linked.disk w).
Proof.
  intros Hnot.
  assert (exists e d,
    prepare_index_file linesep __file__ (Linked.disk w) = (Raised e, d) /\
    files d = files (Linked.disk w) /\ cwd d = cwd (Linked.disk w)) as Hcore.
  { destruct (prepare_cases linesep __file__ (Linked.disk w))
      as [(r & b & s & Hr)|Hraise]; [|done]. now destruct (Hnot r b s). }
  split; [|done].
  unfold Linked.prepare_index_file, prepare_index_file.
  unfold mbind at 1 3. unfold Linked.IO_bind, Linked.bind, IO_bind, bind.
  change (ROOT __file__ / "README.md")%path with (README __file__).
  change (ROOT __file__ / "docs" / "index.md")%path with (index_md __file__).
  rewrite linked_read_text. unfold Linked.on_disk at 1 2.
  destruct (read_text (README __file__) (Linked.disk w)) as [[s|e] d1] eqn:Hread; [|done].
  unfold mbind, mret, Linked.IO_bind, Linked.IO_ret, Linked.bind, Linked.ret,
    IO_bind, IO_ret, bind, ret.
  rewrite linked_write_text_eval, write_text_eval. cbn [Linked.disk].
  destruct (read_text_disk _ _ _ _ Hread) as (Hf & Hc).
  assert (resolve d1 (index_md __file__) = resolve (Linked.disk w) (index_md __file__)) as ->.
  { unfold resolve. now rewrite Hf, Hc. }
  rewrite Hf.
  destruct (resolve (Linked.disk w) (index_md __file__)) as [dst|e] eqn:Edst; [|done].
  destruct (node_at (files (Linked.disk w)) dst) as [[c|]|] eqn:En; [|done|].
  all: exfalso; revert Hread Edst En; rewrite read_text_eval, resolve_README, resolve_index_md.
  all: destruct (resolve (Linked.disk w) (ROOT __file__)) as [r|] eqn:ER; [|done].
  all: unfold descend; destruct (node_at (files (Linked.disk w)) r) as [[|]|] eqn:Er; try done.
  all: rewrite !node_at_snoc.
  all: destruct (files (Linked.disk w) !! (r ++ ["README.md"])) as [[b|]|] eqn:Esrc; try done.
  all: destruct (decode b) as [s'|] eqn:Es; [|done]; intros _.
  all: destruct (files (Linked.disk w) !! (r ++ ["docs"])) as [[|]|] eqn:Edocs; try done.
  all: rewrite <- app_assoc; simpl app; intros [= <-]; rewrite node_at_app_cons; intros En.
  all: apply (Hnot r b s'); unfold ready; rewrite Esrc, Edocs, En; done.
Qed.

(** Whether a disk is one on which the copy reaches the point of writing
    can be told. *)
Lemma ready_or_not (d : os.world) :
  (exists r b s, ready __file__ d r b s) \/
  (forall r b s, ~ ready __file__ d r b s).
Proof.
  assert (forall r b s, ready __file__ d r b s ->
            resolve d (ROOT __file__) = Returned r /\
            node_at (files d) r = Some Dir /\
            files d !! (r ++ ["README.md"]) = Some (File b) /\
            decode b = Some s /\
            files d !! (r ++ ["docs"]) = Some Dir /\
            files d !! (r ++ ["docs"; "index.md"]) ≠ Some Dir) as Hinv by done.
  destruct (resolve d (ROOT __file__)) as [r|e] eqn:ER.
  2: right; intros r b s (? & _)%Hinv; congruence.
  destruct (node_at (files d) r) as [[|]|] eqn:Er.
  1,3: right; intros r' b s (? & ? & _)%Hinv; congruence.
  destruct (files d !! (r ++ ["README.md"])) as [[b|]|] eqn:Esrc.
  2,3: right; intros r' b' s (? & _ & ? & _)%Hinv; congruence.
  destruct (decode b) as [s|] eqn:Es.
  2: right; intros r' b' s (? & _ & ? & ? & _)%Hinv; congruence.
  destruct (files d !! (r ++ ["docs"])) as [[|]|] eqn:Edocs.
  1,3: right; intros r' b' s' (? & _ & _ & _ & ? & _)%Hinv; congruence.
  destruct (files d !! (r ++ ["docs"; "index.md"])) as [[c|]|] eqn:Ei.
  2: right; intros r' b' s' (? & _ & _ & _ & _ & ?)%Hinv; congruence.
  all: left; exists r, b, s; unfold ready; rewrite ER, Er, Esrc, Es, Edocs, Ei; done.
Qed.

(** With no links the run is the run on the disk alone. *)
Lemma linked_prepare_without_links w :
  Linked.other_names w = ∅ ->
  Linked.prepare_index_file linesep __file__ w
  = Linked.on_disk (prepare_index_file linesep __file__) w.
Proof.
  intros Hnone.
  destruct (ready_or_not (Linked.disk w)) as [(r & b & s & Hr)|Hnot].
  - rewrite (linked_prepare_ready w r b s Hr). unfold Linked.on_disk.
    rewrite (prepare_ready linesep __file__ _ r b s Hr).
    unfold Linked.copied, copied, Linked.names_of. rewrite Hnone, lookup_empty.
    simpl. now destruct (encode _).
  - now apply linked_prepare_not_ready.
Qed.

End linked_run_facts.

(** * The properties of the specification *)

Section properties.
Context {codec : Codec} (linesep : line_separator) (__file__ : string).

(** C3 (idempotence). Running [prepare_index_file] twice in succession,
    nothing else touching the disk in between, leaves the disk after the
    second run as it was after the first, the index in particular, and the
    second run ends as the first did. This holds whether the runs return or
    raise. *)
Theorem idempotence w :
  let '(o1, w1) := prepare_index_file linesep __file__ w in
  let '(o2, w2) := prepare_index_file linesep __file__ w1 in
  o2 = o1 /\
  files w2 = files w1 /\
  content w2 (index_md __file__) = content w1 (index_md __file__).
Proof.
  destruct (prepare_index_file linesep __file__ w) as [o1 w1] eqn:E1.
  destruct (prepare_index_file linesep __file__ w1) as [o2 w2] eqn:E2.
  assert (o2 = o1 /\ files w2 = files w1) as (-> & Hf).
  { destruct (prepare_cases linesep __file__ w)
      as [(r & b & s & Hr)|(e & w' & E & Hf & Hc)].
    - rewrite (prepare_ready linesep __file__ w r b s Hr) in E1.
      set (enc := encode _) in *.
      assert (exists x, w1 = copied w (r ++ ["README.md"]) (r ++ ["docs"; "index.md"]) x /\
                        (x = [] \/ enc = Some x)) as (x & -> & Hx).
      { destruct enc as [nb|]; injection E1 as <- <-; eexists; eauto. }
      pose proof (ready_copied __file__ w r b s x Hr) as Hr'.
      rewrite (prepare_ready linesep __file__ _ r b s Hr') in E2.
      fold enc in E2.
      destruct enc as [nb|]; injection E1 as <-; injection E2 as <- <-;
        (split; [done|]); simpl; now rewrite insert_insert_eq.
    - rewrite E in E1. injection E1 as <- <-.
      destruct (prepare_same_disk linesep __file__ w' w Hf Hc) as (Ho & Hf').
      rewrite E, E2 in Ho, Hf'. simpl in *. subst o2.
      split; [done|]. congruence. }
  split; [done|]. split; [done|].
  pose proof (prepare_cwd linesep __file__ w1) as Hc. rewrite E2 in Hc.
  unfold content, resolve. simpl in Hc. now rewrite Hf, Hc.
Qed.

(** C4 (missing source). When the root is a directory and nothing exists at
    [README.md] under it, [prepare_index_file] raises FileNotFoundError and
    the world is returned exactly as it was: no file was opened, so no write
    began, and the index is unmodified if it existed and absent if it did
    not. *)
Theorem missing_source_fails_before_writing w :
  isdir w (ROOT __file__) = true ->
  exists_ w (README __file__) = false ->
  prepare_index_file linesep __file__ w = (Raised FileNotFoundError, w).
Proof.
  intros (r & ER & Er)%isdir_inv Hex.
  unfold exists_ in Hex. rewrite resolve_README, ER in Hex.
  unfold descend in Hex. rewrite Er, node_at_snoc in Hex.
  rewrite prepare_index_file_eval, ER. cbn zeta. rewrite Er.
  now destruct (files w !! (r ++ ["README.md"])).
Qed.

(** Without a [docs] directory under the root no run creates anything,
    whatever the README is: the run raises and the disk holds exactly the
    files and directories it held. *)
Lemma missing_docs_creates_nothing w :
  isdir w (ROOT __file__) = true ->
  exists_ w (docs __file__) = false ->
  exists e w',
    prepare_index_file linesep __file__ w = (Raised e, w') /\
    files w' = files w.
Proof.
  intros (r & ER & Er)%isdir_inv Hex.
  unfold exists_ in Hex. rewrite resolve_docs, ER in Hex.
  unfold descend in Hex. rewrite Er, node_at_snoc in Hex.
  assert (files w !! (r ++ ["docs"]) = None) as Edocs.
  { now destruct (files w !! (r ++ ["docs"])). }
  rewrite prepare_index_file_eval, ER. cbn zeta. rewrite Er, Edocs.
  destruct (files w !! (r ++ ["README.md"])) as [[b|]|].
  2,3: eexists _, _; split; done.
  destruct (decode b) as [s|]; eexists _, _; split; done.
Qed.

(** C5 (missing destination directory). When the root is a directory,
    nothing exists at [docs] under it, and the README can be read, as the
    operation presupposes, [prepare_index_file] raises FileNotFoundError. It
    does so in the world the read left, whose disk is the disk before the
    run: no file is created, and no directory either. *)
Theorem missing_docs_directory_fails w s w1 :
  isdir w (ROOT __file__) = true ->
  exists_ w (docs __file__) = false ->
  read_text (README __file__) w = (Returned s, w1) ->
  prepare_index_file linesep __file__ w = (Raised FileNotFoundError, w1) /\
  files w1 = files w /\
  exists_ w1 (index_md __file__) = false.
Proof.
  intros (r & ER & Er)%isdir_inv Hex Hread.
  unfold exists_ in Hex. rewrite resolve_docs, ER in Hex.
  unfold descend in Hex. rewrite Er, node_at_snoc in Hex.
  assert (files w !! (r ++ ["docs"]) = None) as Edocs.
  { now destruct (files w !! (r ++ ["docs"])). }
  clear Hex.
  destruct (read_text_disk _ _ _ _ Hread) as (Hf & Hc).
  split; [|split; [done|]].
  - rewrite read_text_eval, resolve_README, ER in Hread.
    rewrite prepare_index_file_eval, ER. cbn zeta.
    unfold descend in Hread. rewrite Er, node_at_snoc in Hread. rewrite Er.
    destruct (files w !! (r ++ ["README.md"])) as [[b|]|]; try done.
    destruct (decode b) as [s'|]; [|done].
    injection Hread as <- <-. now rewrite Edocs.
  - unfold exists_, resolve. rewrite Hf, Hc.
    change (namei (files w) (cwd w) (index_md __file__))
      with (resolve w (index_md __file__)).
    rewrite resolve_index_md, ER. unfold descend.
    now rewrite Er, node_at_snoc, Edocs.
Qed.

(** C6 (root-path resolution). The interpreter the script requires sets
    [__file__] to an absolute path. Then, for a script at [ds/d/f], the root
    is [ds], two levels up from the script file, and it anchors both the
    source [ds/README.md] and the destination [ds/docs/index.md]; and a run
    from any other working directory does exactly what the run does, to the
    same files. *)
Theorem root_resolution :
  absolute (Path __file__) = true ->
  (forall ds d f,
      parts (Path __file__) = ds ++ [d; f] ->
      ROOT __file__ = {| absolute := true; parts := ds |} /\
      README __file__ = {| absolute := true; parts := ds ++ ["README.md"] |} /\
      index_md __file__
      = {| absolute := true; parts := ds ++ ["docs"; "index.md"] |}) /\
  (forall w wd,
      prepare_index_file linesep __file__ (chdir wd w) =
        (let '(o, w') := prepare_index_file linesep __file__ w in
         (o, chdir wd w'))).
Proof.
  intros Habs. split.
  - intros ds d f Hparts.
    assert (ROOT __file__ = {| absolute := true; parts := ds |}) as HROOT.
    { unfold ROOT, parent. cbn [absolute parts].
      now rewrite Habs, Hparts, removelast_two. }
    split; [done|].
    split. { unfold README. now rewrite HROOT. }
    unfold index_md. rewrite HROOT. unfold truediv. simpl.
    now rewrite <- app_assoc.
  - intros w wd. rewrite !prepare_index_file_eval.
    assert (resolve (chdir wd w) (ROOT __file__) = resolve w (ROOT __file__)) as ->.
    { apply namei_absolute. exact Habs. }
    change (files (chdir wd w)) with (files w). cbn zeta.
    repeat case_match; done.
Qed.

(** C7 (entry point). Run as a script, the module calls [main], which is one
    run of [prepare_index_file]: the script ends in the world that run ends
    in, having opened at most two files. The exit status is 0 when the run
    returned and 1 when it raised. The exception that reaches the top is
    the very one [read_text] or [write_text] raised, in the world they left:
    nothing is caught, wrapped or tried again. Imported under another name,
    the module does nothing. *)
Theorem entry_point w :
  let '(o, w') := prepare_index_file linesep __file__ w in
  main linesep __file__ w = (o, w') /\
  run_script linesep __file__ w = (exit_status o, w') /\
  (exit_status o = 0%Z <-> o = Returned tt) /\
  (forall e, o = Raised e -> exit_status o = 1%Z) /\
  (forall e w1,
      read_text (README __file__) w = (Raised e, w1) ->
      o = Raised e /\ w' = w1) /\
  (forall s w1 e w2,
      read_text (README __file__) w = (Returned s, w1) ->
      write_text linesep (index_md __file__) s w1 = (Raised e, w2) ->
      o = Raised e /\ w' = w2) /\
  (exists evs, trace w' = trace w ++ evs /\ (length evs <= 2)%nat) /\
  (forall name, String.eqb name "__main__" = false ->
                module_body linesep __file__ name w = (Returned tt, w)).
Proof.
  destruct (prepare_index_file linesep __file__ w) as [o w'] eqn:Hrun.
  split; [done|].
  split. { unfold run_script, module_body, main. simpl. now rewrite Hrun. }
  split. { destruct o as [[]|]; simpl; split; done. }
  split. { now intros e ->. }
  split.
  { intros e w1 Hread.
    apply (failed_read_ends_run linesep) in Hread as [Hrun' _].
    rewrite Hrun in Hrun'. now injection Hrun' as -> ->. }
  split.
  { intros s w1 e w2 Hread Hwrite.
    unfold prepare_index_file, mbind, IO_bind, bind in Hrun.
    change (ROOT __file__ / "README.md")%path with (README __file__) in Hrun.
    change (ROOT __file__ / "docs" / "index.md")%path with (index_md __file__) in Hrun.
    rewrite Hread, Hwrite in Hrun. now injection Hrun as <- <-. }
  split.
  { pose proof (prepare_trace linesep __file__ w) as Ht. now rewrite Hrun in Ht. }
  intros name Hname. unfold module_body. now rewrite Hname.
Qed.

End properties.

Section lawful_properties.
Context {codec : Codec} {lawful : Lawful codec}.
Context (linesep : line_separator) (__file__ : string).

(** C1 (fidelity), amended. After a run that returns, the index holds the
    octets of the README with every line ending, "\r\n", "\r" or "\n",
    replaced by the platform's line separator, and nothing else changed; read
    as text, the index gives what the README gives. Where the separator is
    "\n" and the README holds no carriage return, the index holds the
    README's octets exactly. *)
Theorem fidelity_up_to_line_endings w w' :
  prepare_index_file linesep __file__ w = (Returned tt, w') ->
  exists C,
    content w (README __file__) = Some C /\
    content w' (index_md __file__) = Some (normalize_line_endings linesep C) /\
    (read_text (index_md __file__) w').1 = (read_text (README __file__) w).1 /\
    (linesep = sep_LF -> byte_CR ∉ C -> content w' (index_md __file__) = Some C).
Proof.
  intros (C & EC & Ec & Hread)%prepare_returns_content. exists C.
  do 3 (split; [done|]).
  intros -> Hcr. now rewrite Ec, normalize_line_endings_id.
Qed.


End lawful_properties.

(** On a disk with links. *)

Section linked_properties.
Context {codec : Codec} (linesep : line_separator) (__file__ : string).

Lemma linked_prepare_returns_inv w w' :
  Linked.prepare_index_file linesep __file__ w = (Returned tt, w') ->
  exists r b s nb,
    ready __file__ (Linked.disk w) r b s /\
    w' = Linked.copied w (r ++ ["README.md"]) (r ++ ["docs"; "index.md"]) nb.
Proof.
  destruct (ready_or_not __file__ (Linked.disk w)) as [(r & b & s & Hr)|Hnot].
  - rewrite (linked_prepare_ready linesep __file__ w r b s Hr).
    destruct (encode _) as [nb|]; [|done]. intros [= <-]. by exists r, b, s, nb.
  - destruct (linked_prepare_not_ready linesep __file__ w Hnot)
      as (-> & e & d & E & _).
    unfold Linked.on_disk. now rewrite E.
Qed.

(** C9 (frame), amended. A run that returns opened two files, the README for
    reading and then the index for writing, and nothing else. It wrote one
    file, the one the index names: afterwards that file holds the new
    octets under each of its names, every location that is not a name of
    that file holds what it held, no directory was made or replaced, and the
    table of names and the working directory are the same. The README reads
    as it did before, provided the index is not another name of it. *)
Theorem frame_with_links w w' :
  Linked.prepare_index_file linesep __file__ w = (Returned tt, w') ->
  exists src dst b,
    resolve (Linked.disk w) (README __file__) = Returned src /\
    resolve (Linked.disk w) (index_md __file__) = Returned dst /\
    trace (Linked.disk w')
    = trace (Linked.disk w) ++ [Opened O_RDONLY src; Opened O_WRONLY_CREAT_TRUNC dst] /\
    cwd (Linked.disk w') = cwd (Linked.disk w) /\
    Linked.other_names w' = Linked.other_names w /\
    files (Linked.disk w') !! dst = Some (File b) /\
    (forall loc,
        loc ≠ dst -> loc ∉ Linked.names_of w dst ->
        files (Linked.disk w') !! loc = files (Linked.disk w) !! loc) /\
    (forall loc c,
        loc ∈ Linked.names_of w dst -> files (Linked.disk w) !! loc = Some (File c) ->
        files (Linked.disk w') !! loc = Some (File b)) /\
    (forall loc,
        files (Linked.disk w') !! loc = Some Dir
        <-> files (Linked.disk w) !! loc = Some Dir) /\
    (src ∉ Linked.names_of w dst ->
     content (Linked.disk w') (README __file__)
     = content (Linked.disk w) (README __file__)).
Proof.
  intros (r & b & s & nb & Hr & ->)%linked_prepare_returns_inv.
  destruct (ready_resolve _ _ _ _ _ Hr) as (E1 & E2 & Eb).
  pose proof Hr as (_ & _ & Esrc & _ & _ & Edst).
  exists (r ++ ["README.md"]), (r ++ ["docs"; "index.md"]), nb.
  do 5 (split; [done|]).
  split. { simpl. apply lookup_insert_eq. }
  assert (forall loc,
            loc ≠ r ++ ["docs"; "index.md"] ->
            loc ∉ Linked.names_of w (r ++ ["docs"; "index.md"]) ->
            files (Linked.disk (Linked.copied w (r ++ ["README.md"])
                                  (r ++ ["docs"; "index.md"]) nb)) !! loc
            = files (Linked.disk w) !! loc) as Hother.
  { intros loc Hne Hout. simpl. rewrite lookup_insert_ne by done.
    now apply lookup_write_through_other. }
  split; [exact Hother|].
  split.
  { intros loc c Hin Hc. simpl.
    destruct (decide (loc = r ++ ["docs"; "index.md"])) as [->|Hne].
    - apply lookup_insert_eq.
    - rewrite lookup_insert_ne by done. rewrite lookup_write_through.
      now rewrite decide_True, Hc. }
  split.
  { intros loc. simpl.
    destruct (decide (loc = r ++ ["docs"; "index.md"])) as [->|Hne].
    - rewrite lookup_insert_eq. split; [done|]. intros E. now rewrite E in Edst.
    - rewrite lookup_insert_ne by done. apply lookup_write_through_dir. }
  intros Hout. rewrite Eb. unfold content, resolve.
  assert (node_at (files (Linked.disk w)) (r ++ ["docs"; "index.md"]) ≠ Some Dir)
    as Hdst by now rewrite node_at_app_cons.
  unfold resolve in E1. unfold namei in *. simpl cwd.
  rewrite (fold_walk_same_dirs (files (Linked.disk w)) _ _ _ (r ++ ["README.md"])
             (fun l => node_at_copied_dir w (r ++ ["README.md"])
                         (r ++ ["docs"; "index.md"]) nb l Hdst) E1).
  rewrite node_at_snoc, Hother; [now rewrite Esrc| |done].
  apply source_not_destination.
Qed.
End linked_properties.

(** Two encodings that invert agree on what they leave in the index, when
    both runs return: an encoding of that kind matters only through the
    READMEs it can read. *)
Lemma lawful_encodings_agree (c1 c2 : Codec) (l1 : Lawful c1) (l2 : Lawful c2)
    (linesep : line_separator) (f1 f2 : string) (w1 w2 w1' w2' : world) :
  @prepare_index_file c1 linesep f1 w1 = (Returned tt, w1') ->
  @prepare_index_file c2 linesep f2 w2 = (Returned tt, w2') ->
  content w1 (README f1) = content w2 (README f2) ->
  content w1' (index_md f1) = content w2' (index_md f2).
Proof.
  intros (C1 & E1 & -> & _)%prepare_returns_content.
  intros (C2 & E2 & -> & _)%prepare_returns_content.
  rewrite E1, E2. now intros [= ->].
Qed.


(** * The properties on the example worlds *)

(** C1 as stated fails: write "a\r\nb" to the README with [write_text], so
    that the file holds those four characters as octets, and run the script.
    The run returns, and the index holds "a\nb": three octets, not the four
    of the README; read back as text it gives "a\nb", not the text that was
    written to the README. *)
Lemma fidelity_fails_on_carriage_return :
  content crlf_checkout (README script_path) = Some crlf_md /\
  (run crlf_checkout).1 = Returned tt /\
  content (run crlf_checkout).2 (index_md script_path) = Some lf_md /\
  lf_md <> crlf_md /\
  (@read_text utf8 (index_md script_path) (run crlf_checkout).2).1 = Returned lf_text /\
  lf_text <> crlf_text.
Proof. vm_compute. repeat split; try reflexivity; discriminate. Qed.


(** [fidelity_up_to_line_endings] on the scenario of the specification. *)
Lemma fidelity_up_to_line_endings_witness :
  run hello_checkout = (Returned tt, (run hello_checkout).2) /\
  exists C,
    content hello_checkout (README script_path) = Some C /\
    content (run hello_checkout).2 (index_md script_path)
    = Some (normalize_line_endings sep_LF C) /\
    (@read_text utf8 (index_md script_path) (run hello_checkout).2).1
    = (@read_text utf8 (README script_path) hello_checkout).1 /\
    (sep_LF = sep_LF -> byte_CR ∉ C ->
     content (run hello_checkout).2 (index_md script_path) = Some C).
Proof.
  split; [vm_compute; reflexivity|].
  apply (@fidelity_up_to_line_endings utf8 utf8_lawful sep_LF script_path).
  vm_compute. reflexivity.
Defined.


(** [missing_source_fails_before_writing] on the checkout without a README. *)
Lemma missing_source_fails_before_writing_witness :
  isdir no_readme_checkout (ROOT script_path) = true /\
  exists_ no_readme_checkout (README script_path) = false /\
  run no_readme_checkout = (Raised FileNotFoundError, no_readme_checkout).
Proof.
  split; [reflexivity|]. split; [reflexivity|].
  apply (@missing_source_fails_before_writing utf8 sep_LF script_path);
    reflexivity.
Defined.

(** [missing_docs_directory_fails] on the checkout without a [docs]
    directory. *)
Lemma missing_docs_directory_fails_witness :
  isdir no_docs_checkout (ROOT script_path) = true /\
  exists_ no_docs_checkout (docs script_path) = false /\
  @read_text utf8 (README script_path) no_docs_checkout
  = (Returned (universal_newlines (default [] (utf8_decode hello_md))),
     log (Opened O_RDONLY ["repo"; "README.md"]) no_docs_checkout) /\
  run no_docs_checkout
  = (Raised FileNotFoundError,
     log (Opened O_RDONLY ["repo"; "README.md"]) no_docs_checkout) /\
  files (log (Opened O_RDONLY ["repo"; "README.md"]) no_docs_checkout)
  = files no_docs_checkout /\
  exists_ (log (Opened O_RDONLY ["repo"; "README.md"]) no_docs_checkout)
    (index_md script_path) = false.
Proof.
  split; [reflexivity|]. split; [reflexivity|].
  split; [vm_compute; reflexivity|].
  apply (@missing_docs_directory_fails utf8 sep_LF script_path no_docs_checkout
           (universal_newlines (default [] (utf8_decode hello_md))));
    [reflexivity|reflexivity|vm_compute; reflexivity].
Defined.

(** [root_resolution] for the script at [/repo/scripts/prepare_docs.py]. *)
Lemma root_resolution_witness :
  absolute (Path script_path) = true /\
  (forall ds d f,
      parts (Path script_path) = ds ++ [d; f] ->
      ROOT script_path = {| absolute := true; parts := ds |} /\
      README script_path = {| absolute := true; parts := ds ++ ["README.md"] |} /\
      index_md script_path
      = {| absolute := true; parts := ds ++ ["docs"; "index.md"] |}) /\
  (forall w wd,
      run (chdir wd w) = (let '(o, w') := run w in (o, chdir wd w'))).
Proof.
  split; [reflexivity|].
  apply (@root_resolution utf8 sep_LF script_path). reflexivity.
Defined.

(** The script of the example is two levels below [/repo]. *)
Example root_of_script_path :
  parts (Path script_path) = ["repo"] ++ ["scripts"; "prepare_docs.py"] /\
  ROOT script_path = {| absolute := true; parts := ["repo"] |}.
Proof. split; reflexivity. Qed.

(** The scenario of the specification: the README holds
    "# Project\n\nHello world.\n" and the index holds "stale"; after the run
    the index holds exactly the README's octets. *)
Example scenario :
  content hello_checkout (README script_path) = Some hello_md /\
  content hello_checkout (index_md script_path) = Some stale /\
  (run hello_checkout).1 = Returned tt /\
  content (run hello_checkout).2 (index_md script_path) = Some hello_md.
Proof. vm_compute. repeat split; reflexivity. Qed.


(** C9 as stated fails: the index is another name of the README, which
    holds "a\r\nb". The run returns, and the README, which the claim says is
    only read, then holds "a\nb". *)
Lemma frame_fails_on_a_linked_index :
  content (Linked.disk index_is_README) (README script_path) = Some crlf_md /\
  Linked.names_of index_is_README index_loc = [README_loc] /\
  (linked_run index_is_README).1 = Returned tt /\
  content (Linked.disk (linked_run index_is_README).2) (README script_path)
  = Some lf_md /\
  lf_md <> crlf_md.
Proof. vm_compute. repeat split; try reflexivity; discriminate. Qed.

(** [frame_with_links] on the checkout whose index has a second name. *)
Lemma frame_with_links_witness :
  linked_run index_has_two_names = (Returned tt, (linked_run index_has_two_names).2) /\
  exists src dst b,
    resolve (Linked.disk index_has_two_names) (README script_path) = Returned src /\
    resolve (Linked.disk index_has_two_names) (index_md script_path) = Returned dst /\
    trace (Linked.disk (linked_run index_has_two_names).2)
    = trace (Linked.disk index_has_two_names)
      ++ [Opened O_RDONLY src; Opened O_WRONLY_CREAT_TRUNC dst] /\
    cwd (Linked.disk (linked_run index_has_two_names).2)
    = cwd (Linked.disk index_has_two_names) /\
    Linked.other_names (linked_run index_has_two_names).2
    = Linked.other_names index_has_two_names /\
    files (Linked.disk (linked_run index_has_two_names).2) !! dst = Some (File b) /\
    (forall loc,
        loc ≠ dst -> loc ∉ Linked.names_of index_has_two_names dst ->
        files (Linked.disk (linked_run index_has_two_names).2) !! loc
        = files (Linked.disk index_has_two_names) !! loc) /\
    (forall loc c,
        loc ∈ Linked.names_of index_has_two_names dst ->
        files (Linked.disk index_has_two_names) !! loc = Some (File c) ->
        files (Linked.disk (linked_run index_has_two_names).2) !! loc = Some (File b)) /\
    (forall loc,
        files (Linked.disk (linked_run index_has_two_names).2) !! loc = Some Dir
        <-> files (Linked.disk index_has_two_names) !! loc = Some Dir) /\
    (src ∉ Linked.names_of index_has_two_names dst ->
     content (Linked.disk (linked_run index_has_two_names).2) (README script_path)
     = content (Linked.disk index_has_two_names) (README script_path)).
Proof.
  split; [vm_compute; reflexivity|].
  apply (@frame_with_links utf8 sep_LF script_path index_has_two_names).
  vm_compute. reflexivity.
Defined.

(** On that checkout the index's other name shows the new octets too, and
    the README is as it was. *)
Example second_name_follows :
  files (Linked.disk (linked_run index_has_two_names).2) !! home_loc
  = Some (File hello_md) /\
  content (Linked.disk (linked_run index_has_two_names).2) (index_md script_path)
  = Some hello_md /\
  content (Linked.disk (linked_run index_has_two_names).2) (README script_path)
  = Some hello_md.
Proof. vm_compute. repeat split; reflexivity. Qed.



(** * Further properties of the script *)

(** ** More on the path walk and on line endings *)

(** The walk fails in two ways only. *)
Lemma fold_walk_raises fs ps acc e :
  (forall e', acc = Raised e' -> e' = FileNotFoundError \/ e' = NotADirectoryError) ->
  fold_left (walk_step fs) ps acc = Raised e ->
  e = FileNotFoundError \/ e = NotADirectoryError.
Proof.
  revert acc. induction ps as [|name ps IH]; intros acc Hacc; simpl.
  - apply Hacc.
  - apply IH. intros e'. destruct acc as [cur|e0]; simpl.
    + destruct (node_at fs cur) as [[|]|]; intros [= <-]; eauto.
    + intros [= <-]. now apply Hacc.
Qed.

Lemma namei_raises fs wd p e :
  namei fs wd p = Raised e -> e = FileNotFoundError \/ e = NotADirectoryError.
Proof. apply fold_walk_raises. intros e'. discriminate. Qed.

Lemma node_at_insert_eq fs (loc : list string) x :
  loc ≠ [] -> node_at (<[loc := x]> fs) loc = Some x.
Proof. destruct loc; [done|]. intros _. simpl. apply lookup_insert_eq. Qed.

Lemma normalize_line_endings_idemp l b :
  normalize_line_endings l (normalize_line_endings l b) = normalize_line_endings l b.
Proof.
  unfold normalize_line_endings.
  pose proof (translate_in_no_cr byte_CR byte_LF byte_CR_LF b) as Hb.
  destruct l; simpl.
  - rewrite !translate_out_lf. now rewrite translate_in_idemp by apply byte_CR_LF.
  - now rewrite translate_in_out_crlf by (apply byte_CR_LF || done).
Qed.

Lemma normalize_line_endings_no_CR b : byte_CR ∉ normalize_line_endings sep_LF b.
Proof.
  unfold normalize_line_endings. simpl. rewrite translate_out_lf.
  apply translate_in_no_cr, byte_CR_LF.
Qed.

Section more_script_facts.
Context {codec : Codec} (linesep : line_separator) (__file__ : string).

Lemma ready_observed w r b s :
  ready __file__ w r b s ->
  content w (README __file__) = Some b /\
  isdir w (docs __file__) = true /\
  isdir w (index_md __file__) = false.
Proof.
  intros Hr. destruct (ready_resolve _ _ _ _ _ Hr) as (_ & E2 & Eb).
  destruct Hr as (ER & Er & Esrc & Es & Edocs & Edst).
  split; [done|]. unfold isdir.
  rewrite resolve_docs, E2, ER. unfold descend.
  rewrite Er, !node_at_snoc, Edocs, node_at_app_cons.
  split; [done|]. now destruct (files w !! (r ++ ["docs"; "index.md"])) as [[|]|].
Qed.
End more_script_facts.

(** ** What goes wrong, and in which order *)

Section failures.
Context {codec : Codec} (linesep : line_separator) (__file__ : string).

(** X4 (root not a directory). When the root the script computes is not a
    directory, a run raises FileNotFoundError or NotADirectoryError and
    returns the world exactly as it was: nothing was opened. *)
Theorem root_not_a_directory w :
  isdir w (ROOT __file__) = false ->
  exists e,
    prepare_index_file linesep __file__ w = (Raised e, w) /\
    (e = FileNotFoundError \/ e = NotADirectoryError).
Proof.
  unfold isdir. rewrite prepare_index_file_eval. cbn zeta.
  destruct (resolve w (ROOT __file__)) as [r|e] eqn:ER.
  - destruct (node_at (files w) r) as [[|]|]; [eauto|done|eauto].
  - intros _. exists e. split; [done|]. now apply namei_raises in ER.
Qed.

(** X5 (README is a directory). When a directory sits where the README
    should be, a run raises IsADirectoryError and returns the world exactly
    as it was. *)
Theorem readme_is_a_directory w :
  isdir w (README __file__) = true ->
  prepare_index_file linesep __file__ w = (Raised IsADirectoryError, w).
Proof.
  unfold isdir. rewrite resolve_README, prepare_index_file_eval. cbn zeta.
  destruct (resolve w (ROOT __file__)) as [r|e]; [|done].
  unfold descend. destruct (node_at (files w) r) as [[|]|]; try done.
  rewrite node_at_snoc.
  now destruct (files w !! (r ++ ["README.md"])) as [[|]|].
Qed.

(** X6 (undecodable README). When the README's octets do not decode, a run
    raises UnicodeDecodeError after opening the README and nothing else:
    the disk is as it was and the index is not touched, whatever the state
    of [docs] and of the index. *)
Theorem undecodable_readme w b :
  content w (README __file__) = Some b ->
  decode b = None ->
  exists src,
    resolve w (README __file__) = Returned src /\
    prepare_index_file linesep __file__ w
    = (Raised UnicodeDecodeError, log (Opened O_RDONLY src) w).
Proof.
  unfold content. rewrite resolve_README, prepare_index_file_eval. cbn zeta.
  destruct (resolve w (ROOT __file__)) as [r|e]; [|done].
  unfold descend. destruct (node_at (files w) r) as [[|]|]; try done.
  rewrite node_at_snoc.
  destruct (files w !! (r ++ ["README.md"])) as [[b'|]|]; try done.
  intros [= ->] ->. by eexists.
Qed.

(** X7 ([docs] is a regular file). When the README can be read and a
    regular file sits where [docs] should be, a run raises
    NotADirectoryError, in the world the read left: the disk is as it
    was. *)
Theorem docs_is_a_regular_file w s w1 D :
  read_text (README __file__) w = (Returned s, w1) ->
  content w (docs __file__) = Some D ->
  prepare_index_file linesep __file__ w = (Raised NotADirectoryError, w1) /\
  files w1 = files w.
Proof.
  intros Hread Hdocs. destruct (read_text_disk _ _ _ _ Hread) as (Hf & _).
  split; [|done]. revert Hread Hdocs.
  unfold content.
  rewrite read_text_eval, resolve_README, resolve_docs, prepare_index_file_eval.
  cbn zeta.
  destruct (resolve w (ROOT __file__)) as [r|e]; [|done].
  unfold descend. destruct (node_at (files w) r) as [[|]|]; try done.
  rewrite !node_at_snoc.
  destruct (files w !! (r ++ ["README.md"])) as [[b|]|]; try done.
  destruct (decode b) as [s'|]; [|done]. intros [= <- <-].
  now destruct (files w !! (r ++ ["docs"])) as [[|]|].
Qed.

(** X8 (index is a directory). When the README can be read and a directory
    sits where the index should be, a run raises IsADirectoryError, in the
    world the read left: the disk is as it was, the directory included. *)
Theorem index_is_a_directory w s w1 :
  read_text (README __file__) w = (Returned s, w1) ->
  isdir w (index_md __file__) = true ->
  prepare_index_file linesep __file__ w = (Raised IsADirectoryError, w1) /\
  files w1 = files w.
Proof.
  intros Hread Hindex. destruct (read_text_disk _ _ _ _ Hread) as (Hf & _).
  split; [|done]. revert Hread Hindex.
  unfold isdir.
  rewrite read_text_eval, resolve_README, resolve_index_md, prepare_index_file_eval.
  cbn zeta.
  destruct (resolve w (ROOT __file__)) as [r|e]; [|done].
  unfold descend. destruct (node_at (files w) r) as [[|]|]; try done.
  rewrite !node_at_snoc.
  destruct (files w !! (r ++ ["README.md"])) as [[b|]|]; try done.
  destruct (decode b) as [s'|]; [|done]. intros [= <- <-].
  destruct (files w !! (r ++ ["docs"])) as [[|]|]; try done.
  rewrite node_at_snoc, <- app_assoc. simpl app.
  now destruct (files w !! (r ++ ["docs"; "index.md"])) as [[|]|].
Qed.

(** X9 (files opened). Whatever happens, a run opens nothing, or the README
    for reading, or the README for reading and then the index for writing:
    no other file is ever opened, and the index is never opened before the
    README has been. *)
Theorem files_opened w :
  trace (prepare_index_file linesep __file__ w).2 = trace w \/
  exists src,
    resolve w (README __file__) = Returned src /\
    (trace (prepare_index_file linesep __file__ w).2 = trace w ++ [Opened O_RDONLY src] \/
     exists dst,
       resolve w (index_md __file__) = Returned dst /\
       trace (prepare_index_file linesep __file__ w).2
       = trace w ++ [Opened O_RDONLY src; Opened O_WRONLY_CREAT_TRUNC dst]).
Proof.
  rewrite prepare_index_file_eval, resolve_README, resolve_index_md. cbn zeta.
  destruct (resolve w (ROOT __file__)) as [r|] eqn:ER; [|by left].
  unfold descend.
  destruct (node_at (files w) r) as [[|]|] eqn:Er; [by left| |by left].
  destruct (files w !! (r ++ ["README.md"])) as [[b|]|] eqn:Esrc; [|by left..].
  right. exists (r ++ ["README.md"]). split; [done|].
  rewrite node_at_snoc.
  destruct (decode b) as [s|]; [|by left].
  destruct (files w !! (r ++ ["docs"])) as [[|]|] eqn:Edocs; [by left| |by left].
  rewrite <- app_assoc. simpl app.
  destruct (files w !! (r ++ ["docs"; "index.md"])) as [[|]|] eqn:Edst;
    [|by left|]; right; eexists; (split; [done|]); now destruct (encode _).
Qed.

(** X11 (one file created at most). A run that returns leaves every directory
    a directory and creates none, and the locations on the disk afterwards
    are those before together with the index: the index is the only thing
    the script ever creates. *)
Theorem creates_only_the_index w w' :
  prepare_index_file linesep __file__ w = (Returned tt, w') ->
  exists dst,
    resolve w (index_md __file__) = Returned dst /\
    dom (files w') = {[dst]} ∪ dom (files w) /\
    (forall loc, files w' !! loc = Some Dir <-> files w !! loc = Some Dir) /\
    exists_ w' (index_md __file__) = true.
Proof.
  intros (r & b & s & nb & Hr & _ & ->)%prepare_returns_inv.
  destruct (ready_resolve _ _ _ _ _ Hr) as (_ & E2 & _).
  destruct (copied_content __file__ w r b s nb Hr) as (E2' & Ec & _).
  exists (r ++ ["docs"; "index.md"]). split; [done|].
  split; [apply dom_insert_L|]. split.
  - intros loc. simpl.
    destruct (decide (loc = r ++ ["docs"; "index.md"])) as [->|Hne].
    + rewrite lookup_insert_eq. destruct Hr as (_ & _ & _ & _ & _ & Hdst).
      split; [done|]. intros E. now rewrite E in Hdst.
    + now rewrite lookup_insert_ne.
  - unfold exists_. rewrite E2'. unfold copied. cbn [files].
    now rewrite node_at_app_cons, lookup_insert_eq.
Qed.
(** X1 (when the run returns). A run returns only if the README is a regular
    file whose octets decode, the text read from it encodes, [docs] is a
    directory and the index is not one. *)
Theorem returns_only_if w w' :
  prepare_index_file linesep __file__ w = (Returned tt, w') ->
  exists b s,
    content w (README __file__) = Some b /\
    decode b = Some s /\
    is_Some (encode (write_newlines linesep (universal_newlines s))) /\
    isdir w (docs __file__) = true /\
    isdir w (index_md __file__) = false.
Proof.
  intros (r & b & s & nb & Hr & Henc & _)%prepare_returns_inv.
  destruct (ready_observed __file__ w r b s Hr) as (Eb & Ed & Ei).
  exists b, s. destruct Hr as (_ & _ & _ & Es & _).
  rewrite Henc. eauto.
Qed.
End failures.

(** ** On a disk with links *)

Section linked_failures.
Context {codec : Codec} (linesep : line_separator) (__file__ : string).

(** X10 (only the index's file changes). Whatever happens and whatever the
    encoding, after a run every location that is neither the index nor
    another name of the index's file holds what it held; no directory is
    made or replaced; and the working directory and the table of names are
    the same. *)
Theorem only_the_index_file_changes w :
  (forall loc,
      (forall dst, resolve (Linked.disk w) (index_md __file__) = Returned dst ->
                   loc ≠ dst /\ loc ∉ Linked.names_of w dst) ->
      files (Linked.disk (Linked.prepare_index_file linesep __file__ w).2) !! loc
      = files (Linked.disk w) !! loc) /\
  (forall loc,
      files (Linked.disk (Linked.prepare_index_file linesep __file__ w).2) !! loc = Some Dir
      <-> files (Linked.disk w) !! loc = Some Dir) /\
  cwd (Linked.disk (Linked.prepare_index_file linesep __file__ w).2) = cwd (Linked.disk w) /\
  Linked.other_names (Linked.prepare_index_file linesep __file__ w).2
  = Linked.other_names w.
Proof.
  destruct (ready_or_not __file__ (Linked.disk w)) as [(r & b & s & Hr)|Hnot].
  - rewrite (linked_prepare_ready linesep __file__ w r b s Hr).
    destruct (ready_resolve _ _ _ _ _ Hr) as (_ & E2 & _).
    pose proof Hr as (_ & _ & _ & _ & _ & Edst).
    assert (forall x,
      (forall loc,
          (forall dst, resolve (Linked.disk w) (index_md __file__) = Returned dst ->
                       loc ≠ dst /\ loc ∉ Linked.names_of w dst) ->
          files (Linked.disk (Linked.copied w (r ++ ["README.md"])
                                (r ++ ["docs"; "index.md"]) x)) !! loc
          = files (Linked.disk w) !! loc) /\
      (forall loc,
          files (Linked.disk (Linked.copied w (r ++ ["README.md"])
                                (r ++ ["docs"; "index.md"]) x)) !! loc = Some Dir
          <-> files (Linked.disk w) !! loc = Some Dir)) as Hx.
    { intros x. split.
      - intros loc Hloc. destruct (Hloc _ E2) as (Hne & Hout). simpl.
        rewrite lookup_insert_ne by done. now apply lookup_write_through_other.
      - intros loc. simpl.
        destruct (decide (loc = r ++ ["docs"; "index.md"])) as [->|Hne].
        + rewrite lookup_insert_eq. split; [done|]. intros E. now rewrite E in Edst.
        + rewrite lookup_insert_ne by done. apply lookup_write_through_dir. }
    destruct (encode _) as [nb|]; simpl;
      (split; [apply Hx|]); (split; [apply Hx|]); done.
  - destruct (linked_prepare_not_ready linesep __file__ w Hnot)
      as (-> & e & d & E & Hf & Hc).
    unfold Linked.on_disk. rewrite E. simpl. rewrite Hf, Hc. done.
Qed.
End linked_failures.

(** ** With an encoding that inverts *)

Section lawful_failures.
Context {codec : Codec} {lawful : Lawful codec}.
Context (linesep : line_separator) (__file__ : string).

(** X2 (what was read can be written). A run never raises
    UnicodeEncodeError: text that was decoded from the README, its line
    endings translated, can always be encoded again, so [write_text] does
    not fail in the encoder after it has truncated the index. *)
Theorem never_raises_UnicodeEncodeError w e w' :
  prepare_index_file linesep __file__ w = (Raised e, w') ->
  e ≠ UnicodeEncodeError.
Proof.
  destruct (prepare_cases linesep __file__ w)
    as [(r & b & s & Hr)|(e0 & w0 & E & Hf & Hc)].
  - now rewrite (prepare_ready_lawful linesep __file__ w r b s Hr).
  - rewrite E. intros [= <- <-].
    intros ->. revert E. rewrite prepare_index_file_eval. cbn zeta.
    repeat case_match; try discriminate.
    all: try match goal with
         | Hd : decode ?b = Some ?s, He : encode _ = None |- _ =>
             now rewrite (encode_copied_text linesep b s Hd) in He
         end.
    intros [= -> _].
    match goal with
    | Hr : resolve _ _ = Raised _ |- _ => now destruct (namei_raises _ _ _ _ Hr)
    end.
Qed.


(** X13 (the index is in normal form). What a run that returns leaves in
    the index has the platform's line endings throughout: normalising it
    again changes nothing, and where the separator is "\n" it holds no
    carriage return. *)
Theorem index_in_normal_form w w' :
  prepare_index_file linesep __file__ w = (Returned tt, w') ->
  exists nb,
    content w' (index_md __file__) = Some nb /\
    normalize_line_endings linesep nb = nb /\
    (linesep = sep_LF -> byte_CR ∉ nb).
Proof.
  intros (C & _ & Ec & _)%prepare_returns_content.
  exists (normalize_line_endings linesep C). split; [done|].
  split; [apply normalize_line_endings_idemp|].
  intros ->. apply normalize_line_endings_no_CR.
Qed.

(** X14 (text written reads back). Text written to a file with [write_text]
    and read again with [read_text] comes back with its line endings read
    universally; it comes back unchanged when it holds no carriage return,
    on either platform. *)
Theorem write_then_read_text p s w n w' :
  write_text linesep p s w = (Returned n, w') ->
  n = length s /\
  (read_text p w').1 = Returned (universal_newlines (write_newlines linesep s)) /\
  (linesep = sep_LF -> (read_text p w').1 = Returned (universal_newlines s)) /\
  (CR ∉ s -> (read_text p w').1 = Returned s).
Proof.
  rewrite write_text_eval.
  destruct (resolve w p) as [loc|] eqn:Ep; [|done].
  assert (node_at (files w) loc ≠ Some Dir ->
          encode (write_newlines linesep s) ≠ None ->
          (Returned (length s),
           store loc (default [] (encode (write_newlines linesep s)))
             (log (Opened O_WRONLY_CREAT_TRUNC loc) (store loc [] w)))
          = (Returned n, w') ->
          n = length s /\
          (read_text p w').1 = Returned (universal_newlines (write_newlines linesep s)))
    as Hmain.
  { intros Hloc Henc [= <- <-]. split; [done|].
    destruct (encode (write_newlines linesep s)) as [b|] eqn:Eb; [|done]. simpl.
    assert (loc ≠ []) as Hne by (intros ->; now apply Hloc).
    rewrite read_text_eval. unfold resolve, store, log. simpl.
    rewrite insert_insert_eq.
    rewrite (namei_insert_file _ _ loc b p loc Hloc Ep).
    rewrite node_at_insert_eq by done.
    now rewrite (encode_decode _ _ Eb). }
  intros Hrun.
  assert (n = length s /\
          (read_text p w').1 = Returned (universal_newlines (write_newlines linesep s)))
    as (Hn & Hread).
  { destruct (node_at (files w) loc) as [[b0|]|] eqn:Eloc; try done;
      destruct (encode (write_newlines linesep s)) as [b|] eqn:Eb; try done;
      apply Hmain; done. }
  split; [done|]. split; [done|]. split.
  - intros ->. rewrite Hread. unfold write_newlines. simpl.
    now rewrite translate_out_lf.
  - intros Hs. rewrite Hread. f_equal. now apply read_back_newlines.
Qed.
End lawful_failures.

(** ** Script paths with fewer than two directories above them *)

(** X15 (shallow script path). [parent] stops at the anchor: for a script
    path of at most two components the root is the anchor itself, "/" for an
    absolute path and the empty relative path for a relative one, and the
    README and the index are looked for directly under it. *)
Theorem shallow_script_path (f : string) :
  (length (parts (Path f)) <= 2)%nat ->
  ROOT f = {| absolute := absolute (Path f); parts := [] |} /\
  README f = {| absolute := absolute (Path f); parts := ["README.md"] |} /\
  index_md f = {| absolute := absolute (Path f); parts := ["docs"; "index.md"] |}.
Proof.
  intros Hlen.
  assert (ROOT f = {| absolute := absolute (Path f); parts := [] |}) as HROOT.
  { unfold ROOT, parent. cbn [absolute parts]. f_equal.
    destruct (parts (Path f)) as [|a [|b [|c l]]]; simpl in *; try done; lia. }
  split; [done|].
  split. { unfold README. now rewrite HROOT. }
  unfold index_md. now rewrite HROOT.
Qed.

(** ** The further properties on the example worlds *)

(** [root_not_a_directory] on a disk without the checkout. *)
Lemma root_not_a_directory_witness :
  isdir empty_disk (ROOT script_path) = false /\
  exists e,
    run empty_disk = (Raised e, empty_disk) /\
    (e = FileNotFoundError \/ e = NotADirectoryError).
Proof.
  split; [reflexivity|].
  apply (@root_not_a_directory utf8 sep_LF script_path). reflexivity.
Defined.

(** [readme_is_a_directory] on the checkout with a directory for README. *)
Lemma readme_is_a_directory_witness :
  isdir readme_dir_checkout (README script_path) = true /\
  run readme_dir_checkout = (Raised IsADirectoryError, readme_dir_checkout).
Proof.
  split; [reflexivity|].
  apply (@readme_is_a_directory utf8 sep_LF script_path). reflexivity.
Defined.

(** [undecodable_readme] on the checkout whose README is the octet 0xFF. *)
Lemma undecodable_readme_witness :
  content undecodable_checkout (README script_path) = Some [xff] /\
  utf8_decode [xff] = None /\
  exists src,
    resolve undecodable_checkout (README script_path) = Returned src /\
    run undecodable_checkout
    = (Raised UnicodeDecodeError, log (Opened O_RDONLY src) undecodable_checkout).
Proof.
  split; [reflexivity|]. split; [reflexivity|].
  apply (@undecodable_readme utf8 sep_LF script_path undecodable_checkout [xff]);
    reflexivity.
Defined.

(** [docs_is_a_regular_file] on the checkout with a file for [docs]. *)
Lemma docs_is_a_regular_file_witness :
  @read_text utf8 (README script_path) docs_file_checkout
  = (Returned (universal_newlines (default [] (utf8_decode hello_md))),
     log (Opened O_RDONLY ["repo"; "README.md"]) docs_file_checkout) /\
  content docs_file_checkout (docs script_path) = Some [] /\
  run docs_file_checkout
  = (Raised NotADirectoryError,
     log (Opened O_RDONLY ["repo"; "README.md"]) docs_file_checkout) /\
  files (log (Opened O_RDONLY ["repo"; "README.md"]) docs_file_checkout)
  = files docs_file_checkout.
Proof.
  split; [vm_compute; reflexivity|]. split; [reflexivity|].
  apply (@docs_is_a_regular_file utf8 sep_LF script_path docs_file_checkout
           (universal_newlines (default [] (utf8_decode hello_md))) _ []);
    [vm_compute; reflexivity|reflexivity].
Defined.

(** [index_is_a_directory] on the checkout with a directory for the index. *)
Lemma index_is_a_directory_witness :
  @read_text utf8 (README script_path) index_dir_checkout
  = (Returned (universal_newlines (default [] (utf8_decode hello_md))),
     log (Opened O_RDONLY ["repo"; "README.md"]) index_dir_checkout) /\
  isdir index_dir_checkout (index_md script_path) = true /\
  run index_dir_checkout
  = (Raised IsADirectoryError,
     log (Opened O_RDONLY ["repo"; "README.md"]) index_dir_checkout) /\
  files (log (Opened O_RDONLY ["repo"; "README.md"]) index_dir_checkout)
  = files index_dir_checkout.
Proof.
  split; [vm_compute; reflexivity|]. split; [reflexivity|].
  apply (@index_is_a_directory utf8 sep_LF script_path index_dir_checkout
           (universal_newlines (default [] (utf8_decode hello_md))));
    [vm_compute; reflexivity|reflexivity].
Defined.

(** [creates_only_the_index] on the checkout without an index. *)
Lemma creates_only_the_index_witness :
  exists_ fresh_checkout (index_md script_path) = false /\
  run fresh_checkout = (Returned tt, (run fresh_checkout).2) /\
  exists dst,
    resolve fresh_checkout (index_md script_path) = Returned dst /\
    dom (files (run fresh_checkout).2) = {[dst]} ∪ dom (files fresh_checkout) /\
    (forall loc, files (run fresh_checkout).2 !! loc = Some Dir
                 <-> files fresh_checkout !! loc = Some Dir) /\
    exists_ (run fresh_checkout).2 (index_md script_path) = true.
Proof.
  split; [reflexivity|]. split; [vm_compute; reflexivity|].
  apply (@creates_only_the_index utf8 sep_LF script_path). vm_compute. reflexivity.
Defined.

(** [returns_only_if] on the scenario of the specification. *)
Lemma returns_only_if_witness :
  run hello_checkout = (Returned tt, (run hello_checkout).2) /\
  exists b s,
    content hello_checkout (README script_path) = Some b /\
    utf8_decode b = Some s /\
    is_Some (utf8_encode (write_newlines sep_LF (universal_newlines s))) /\
    isdir hello_checkout (docs script_path) = true /\
    isdir hello_checkout (index_md script_path) = false.
Proof.
  split; [vm_compute; reflexivity|].
  apply (@returns_only_if utf8 sep_LF script_path hello_checkout (run hello_checkout).2).
  vm_compute. reflexivity.
Defined.

(** [never_raises_UnicodeEncodeError] on the checkout without a README. *)
Lemma never_raises_UnicodeEncodeError_witness :
  run no_readme_checkout = (Raised FileNotFoundError, no_readme_checkout) /\
  FileNotFoundError ≠ UnicodeEncodeError.
Proof.
  split; [vm_compute; reflexivity|].
  apply (@never_raises_UnicodeEncodeError utf8 utf8_lawful sep_LF script_path
           no_readme_checkout FileNotFoundError no_readme_checkout).
  vm_compute. reflexivity.
Defined.


(** [index_in_normal_form] on the checkout whose README holds "a\r\nb". *)
Lemma index_in_normal_form_witness :
  run mixed_checkout = (Returned tt, (run mixed_checkout).2) /\
  exists nb,
    content (run mixed_checkout).2 (index_md script_path) = Some nb /\
    normalize_line_endings sep_LF nb = nb /\
    (sep_LF = sep_LF -> byte_CR ∉ nb).
Proof.
  split; [vm_compute; reflexivity|].
  apply (@index_in_normal_form utf8 utf8_lawful sep_LF script_path mixed_checkout).
  vm_compute. reflexivity.
Defined.

(** [write_then_read_text] for "a\r\nb" written to the README. *)
Lemma write_then_read_text_witness :
  @write_text utf8 sep_LF (README script_path) crlf_text
    (in_checkout None (Some stale) true) = (Returned 4%nat, crlf_checkout) /\
  4%nat = length crlf_text /\
  (@read_text utf8 (README script_path) crlf_checkout).1
  = Returned (universal_newlines (write_newlines sep_LF crlf_text)) /\
  (sep_LF = sep_LF ->
   (@read_text utf8 (README script_path) crlf_checkout).1
   = Returned (universal_newlines crlf_text)) /\
  (CR ∉ crlf_text ->
   (@read_text utf8 (README script_path) crlf_checkout).1 = Returned crlf_text).
Proof.
  split; [vm_compute; reflexivity|].
  apply (@write_then_read_text utf8 utf8_lawful sep_LF (README script_path) crlf_text
           (in_checkout None (Some stale) true)).
  vm_compute. reflexivity.
Defined.

(** [shallow_script_path] for a script in the root directory of the disk. *)
Lemma shallow_script_path_witness :
  (length (parts (Path "/prepare_docs.py")) <= 2)%nat /\
  ROOT "/prepare_docs.py" = {| absolute := absolute (Path "/prepare_docs.py"); parts := [] |} /\
  README "/prepare_docs.py"
  = {| absolute := absolute (Path "/prepare_docs.py"); parts := ["README.md"] |} /\
  index_md "/prepare_docs.py"
  = {| absolute := absolute (Path "/prepare_docs.py"); parts := ["docs"; "index.md"] |}.
Proof.
  split; [simpl; lia|].
  apply (shallow_script_path "/prepare_docs.py"). simpl. lia.
Defined.
